(** * Resume extraction and analysis: a shallow embedding

    The development follows the two Python sources of the repository:
    - [app.py]: [extract_info], the heuristic extraction of a structured
      record from raw text;
    - [resume_analyzer_mcp.py]: [calculate_resume_score], and the branches
      [find_similar_resumes] and [get_database_stats] of [call_tool]; then
      [analyze_experience_level] and the branches [get_experience_analysis],
      [compare_resumes] and [analyze_skills_distribution];
    - [app.py] again: the route [upload_resume], on a state made of the
      files that exist and of the documents of the collection.

    Modelling conventions.
    - A Python [str] is a [string]; a character is a code point below 256
      (Latin-1), and the character classes used by [str.lower], [str.strip],
      [str.splitlines] and the [re] classes [\w], [\d] are the Unicode ones
      restricted to that range.
    - Numbers are exact: Python's [/] is division on [Q], and it raises
      [ZeroDivisionError] on a zero divisor, which the model keeps as an
      explicit error result where the divisor is not a constant. The factors
      [0.8], [0.6] and [0.4] of the grade are the rationals 8/10, 6/10 and
      4/10; [thresholds_in_binary64] checks that the products with the two
      possible maxima are the same numbers in binary64 arithmetic.
    - A MongoDB document is a record whose fields are optional, so that
      [resume.get(key, default)] keeps its meaning; a collection is the list
      of its documents in natural (insertion) order.
    - [set(l)] is a [gset string]. *)

From Stdlib Require Import ZArith QArith Lia Bool Ascii String List PrimFloat.
From Stdlib Require Import Sorted Permutation Lqa.
From stdpp Require Import base option list gmap sets strings.

Local Open Scope Z_scope.

(** ** Characters *)

Module Char.

Definition code (c : ascii) : N := N_of_ascii c.

Definition between (lo hi : N) (c : ascii) : bool :=
  ((lo <=? code c) && (code c <=? hi))%N.

(** [\d]: the decimal digits. *)
Definition is_digit (c : ascii) : bool := between 48 57 c.

(** [\w]: alphanumeric characters and the underscore. *)
Definition is_word (c : ascii) : bool :=
  between 48 57 c || between 65 90 c || (code c =? 95)%N
  || between 97 122 c || (code c =? 170)%N || between 178 179 c
  || (code c =? 181)%N || between 185 186 c || between 188 190 c
  || between 192 214 c || between 216 246 c || between 248 255 c.

(** The letters among the word characters (used for the reading of the
    email pattern that asks for a top-level segment made of letters). *)
Definition is_alpha (c : ascii) : bool :=
  between 65 90 c || between 97 122 c || (code c =? 170)%N
  || (code c =? 181)%N || (code c =? 186)%N
  || between 192 214 c || between 216 246 c || between 248 255 c.

(** Whitespace removed by [str.strip()]. *)
Definition is_space (c : ascii) : bool :=
  between 9 13 c || between 28 32 c || (code c =? 133)%N || (code c =? 160)%N.

(** Line boundaries of [str.splitlines()]. *)
Definition is_linebreak (c : ascii) : bool :=
  between 10 13 c || between 28 30 c || (code c =? 133)%N.

(** [str.lower()] on one character. *)
Definition lower (c : ascii) : ascii :=
  if between 65 90 c || between 192 214 c || between 216 222 c
  then ascii_of_N (code c + 32)
  else c.

End Char.

(** ** Strings *)

Module Str.

Fixpoint lower (s : string) : string :=
  match s with
  | EmptyString => EmptyString
  | String c s' => String (Char.lower c) (lower s')
  end.

(** [startswith p s]: [p] is a prefix of [s]. *)
Fixpoint startswith (p s : string) : bool :=
  match p, s with
  | EmptyString, _ => true
  | String a p', String b s' => if Ascii.eqb a b then startswith p' s' else false
  | String _ _, EmptyString => false
  end.

(** [contains needle hay] is Python's [needle in hay]. *)
Fixpoint contains (needle hay : string) : bool :=
  if startswith needle hay then true
  else match hay with
       | EmptyString => false
       | String _ hay' => contains needle hay'
       end.

Fixpoint lstrip (s : string) : string :=
  match s with
  | EmptyString => EmptyString
  | String c s' => if Char.is_space c then lstrip s' else s
  end.

Fixpoint rstrip (s : string) : string :=
  match s with
  | EmptyString => EmptyString
  | String c s' =>
      match rstrip s' with
      | EmptyString => if Char.is_space c then EmptyString else String c EmptyString
      | r => String c r
      end
  end.

Definition strip (s : string) : string := rstrip (lstrip s).

(** [splitlines_aux cur after_cr s]: [cur] holds the characters of the current
    line in reverse; [after_cr] says that the previous character was a carriage
    return, so that a line feed coming next belongs to the same boundary. A
    final boundary opens no empty last line. *)
Fixpoint rev_append_string (r : list ascii) (acc : string) : string :=
  match r with
  | [] => acc
  | c :: r' => rev_append_string r' (String c acc)
  end.

Definition line_of (cur : list ascii) : string := rev_append_string cur EmptyString.

Fixpoint splitlines_aux (cur : list ascii) (after_cr : bool) (s : string) : list string :=
  match s with
  | EmptyString => match cur with [] => [] | _ => [line_of cur] end
  | String c s' =>
      if after_cr && (Char.code c =? 10)%N then splitlines_aux cur false s'
      else if Char.is_linebreak c
      then line_of cur :: splitlines_aux [] (Char.code c =? 13)%N s'
      else splitlines_aux (c :: cur) false s'
  end.

Definition splitlines (s : string) : list string := splitlines_aux [] false s.

End Str.

(** ** Regular expressions, as [re.search] runs them

    The two patterns of [extract_info] are sequences of word boundaries,
    literal characters and greedy repetitions of one character class. The
    matcher is the backtracking one of Python's [re]: a repetition first
    takes as many characters as it can and gives them back one at a time
    until the rest of the pattern matches. *)

Module Re.

Inductive atom : Type :=
  | Boundary                                              (* \b *)
  | Lit (c : ascii)                                       (* one literal character *)
  | Rep (cls : ascii -> bool) (lo : nat) (hi : option nat). (* cls{lo,hi}, greedy *)

Definition pattern : Type := list atom.

Definition word_opt (o : option ascii) : bool :=
  match o with
  | Some c => Char.is_word c
  | None => false
  end.

Definition next_char (s : string) : option ascii :=
  match s with
  | String c _ => Some c
  | EmptyString => None
  end.

(** [\b] holds between a word character and a non-word character or an end
    of the text; [prev] is the character before the position, if any. *)
Definition at_boundary (prev : option ascii) (s : string) : bool :=
  xorb (word_opt prev) (word_opt (next_char s)).

Definition exhausted (hi : option nat) : bool :=
  match hi with
  | Some O => true
  | _ => false
  end.

(** [rep_greedy cls k lo hi prev s]: consume one more character of the class
    when allowed, and only if everything after that fails stop here (allowed
    once [lo] characters have been taken) and run the continuation [k]. *)
Fixpoint rep_greedy (cls : ascii -> bool) (k : option ascii -> string -> option string)
    (lo : nat) (hi : option nat) (prev : option ascii) (s : string) : option string :=
  let stop := match lo with O => k prev s | S _ => None end in
  match s with
  | String c s' =>
      if cls c && negb (exhausted hi) then
        match rep_greedy cls k (Nat.pred lo) (option_map Nat.pred hi) (Some c) s' with
        | Some m => Some (String c m)
        | None => stop
        end
      else stop
  | EmptyString => stop
  end.

(** [match_here p prev s]: the text matched by [p] at the start of [s]. *)
Fixpoint match_here (p : pattern) (prev : option ascii) (s : string) : option string :=
  match p with
  | [] => Some EmptyString
  | Boundary :: p' => if at_boundary prev s then match_here p' prev s else None
  | Lit c :: p' =>
      match s with
      | String c' s' =>
          if Ascii.eqb c c' then option_map (String c') (match_here p' (Some c') s')
          else None
      | EmptyString => None
      end
  | Rep cls lo hi :: p' => rep_greedy cls (match_here p') lo hi prev s
  end.

(** [re.search]: the match at the leftmost position that has one. *)
Fixpoint search_from (p : pattern) (prev : option ascii) (s : string) : option string :=
  match match_here p prev s with
  | Some m => Some m
  | None =>
      match s with
      | String c s' => search_from p (Some c) s'
      | EmptyString => None
      end
  end.

Definition search (p : pattern) (text : string) : option string :=
  search_from p None text.

End Re.

(** ** app.py *)

Module App.

(** The record returned by [extract_info]. *)
Record info : Type := {
  name : string;
  email : string;
  phone : string;
  skills : list string;
  education : list string;
  experience : list string;
  summary : string
}.

(** An entity of [doc.ents]: its label and its text. *)
Record entity : Type := { label_ : string; text : string }.

(** [[\w\.-]] *)
Definition addr_char (c : ascii) : bool :=
  Char.is_word c || Ascii.eqb c "."%char || Ascii.eqb c "-"%char.

(** [r"\b[\w\.-]+@[\w\.-]+\.\w{2,4}\b"] *)
Definition email_pattern : Re.pattern :=
  [ Re.Boundary; Re.Rep addr_char 1 None; Re.Lit "@"%char;
    Re.Rep addr_char 1 None; Re.Lit "."%char;
    Re.Rep Char.is_word 2 (Some 4%nat); Re.Boundary ].

(** [r"\b\d{10}\b"] *)
Definition phone_pattern : Re.pattern :=
  [ Re.Boundary; Re.Rep Char.is_digit 10 (Some 10%nat); Re.Boundary ].

Definition sample_skills : list string :=
  [ "Python"; "Java"; "SQL"; "Excel"; "C++"; "Machine Learning";
    "Data Science"; "TensorFlow"; "Pandas"; "Numpy"; "Power BI";
    "React"; "Node.js"; "JavaScript"; "HTML"; "CSS"; "MongoDB";
    "Flask"; "Django"; "AWS"; "Docker"; "Kubernetes"; "Git" ].

Definition education_keywords : list string :=
  [ "B.Tech"; "M.Tech"; "Bachelor"; "Master"; "PhD"; "BSc"; "MSc"; "MBA";
    "High School" ].

Definition experience_keywords : list string :=
  [ "experience"; "worked"; "project"; "internship"; "job"; "role"; "position" ].

(** [text.split("\n\n")] *)
Fixpoint split_blank (cur : list ascii) (s : string) : list string :=
  match s with
  | EmptyString => [Str.line_of cur]
  | String c s' =>
      match s' with
      | String d s'' =>
          if (Char.code c =? 10)%N && (Char.code d =? 10)%N
          then Str.line_of cur :: split_blank [] s''
          else split_blank (c :: cur) s'
      | EmptyString => [Str.line_of (c :: cur)]
      end
  end.

(** The loop over [doc.ents]. *)
Definition name_step (name : string) (ent : entity) : string :=
  if String.eqb (label_ ent) "PERSON" && String.eqb name "" then text ent else name.

(** The loop over [sample_skills]. *)
Definition skill_step (txt : string) (skills : list string) (skill : string) : list string :=
  if Str.contains (Str.lower skill) (Str.lower txt) then skills ++ [skill] else skills.

(** The two nested loops over the lines and [education_keywords]. *)
Definition education_step (line : string) (education : list string) (keyword : string)
    : list string :=
  if Str.contains (Str.lower keyword) (Str.lower line)
  then education ++ [Str.strip line] else education.

Definition education_line_step (education : list string) (line : string) : list string :=
  foldl (education_step line) education education_keywords.

(** The loop over the lines for [experience]. *)
Definition experience_step (experience : list string) (line : string) : list string :=
  if existsb (fun word => Str.contains word (Str.lower line)) experience_keywords
  then experience ++ [Str.strip line] else experience.

Definition extract_info (txt : string) (ents : list entity) : info :=
  let name := foldl name_step "" ents in
  let email_match := Re.search email_pattern txt in
  let phone_match := Re.search phone_pattern txt in
  let email := default "" email_match in
  let phone := default "" phone_match in
  let skills := foldl (skill_step txt) [] sample_skills in
  let education := foldl education_line_step [] (Str.splitlines txt) in
  let experience := foldl experience_step [] (Str.splitlines txt) in
  let paragraphs :=
    List.map Str.strip
      (List.filter (fun p => (50 <? String.length (Str.strip p))%nat) (split_blank [] txt)) in
  let summary := match paragraphs with p :: _ => p | [] => "" end in
  {| name := name;
     email := email;
     phone := phone;
     skills := elements (list_to_set skills : gset string);
     education := elements (list_to_set education : gset string);
     experience := take 5 experience;
     summary := summary |}.

End App.

(** ** resume_analyzer_mcp.py *)

Module Analyzer.

(** A MongoDB [ObjectId]; its conversion from the text argument happens before
    the code modelled here. *)
Definition ObjectId : Type := N.

(** A stored document. A field that the document lacks is [None]. *)
Record resume : Type := {
  _id : ObjectId;
  name : option string;
  email : option string;
  phone : option string;
  skills : option (list string);
  experience : option (list string);
  education : option (list string);
  summary : option string
}.

(** Python's truth value of an optional string: [None] and [""] are false. *)
Definition truthy (o : option string) : bool :=
  match o with
  | Some s => negb (String.eqb s "")
  | None => false
  end.

Inductive grade : Type := A | B | C | D.

(** The dictionary returned by [calculate_resume_score], without the
    formatted lines of ['details']. *)
Record score_data : Type := {
  score : Q;
  max_score : Z;
  percentage : Q;
  grade_of : grade
}.

(** The inner loop over [skills], left at the first skill that contains the
    requirement. *)
Fixpoint requirement_matched (req : string) (skills : list string) : bool :=
  match skills with
  | [] => false
  | skill :: skills' =>
      if Str.contains (Str.lower req) (Str.lower skill) then true
      else requirement_matched req skills'
  end.

(** The outer loop over [job_requirements]; the result is [matching_skills]. *)
Definition matching_step (skills : list string) (matching_skills : Z) (req : string) : Z :=
  if requirement_matched req skills then matching_skills + 1 else matching_skills.

Definition count_matching (skills job_requirements : list string) : Z :=
  foldl (matching_step skills) 0 job_requirements.

Definition skills_score (r : resume) : Z :=
  Z.min (Z.of_nat (length (default [] (skills r))) * 3) 30.

Definition exp_score (r : resume) : Z :=
  Z.min (Z.of_nat (length (default [] (experience r))) * 7) 35.

Definition edu_score (r : resume) : Z :=
  Z.min (Z.of_nat (length (default [] (education r))) * 10) 20.

Definition contact_score (r : resume) : Z :=
  (if truthy (email r) then 5 else 0) + (if truthy (phone r) then 5 else 0).

Definition summary_score (r : resume) : Z :=
  let summary := default "" (summary r) in
  if negb (String.eqb summary "") && (50 <? String.length summary)%nat then 5 else 0.

(** The score before the job requirements are looked at. *)
Definition base_score (r : resume) : Z :=
  skills_score r + exp_score r + edu_score r + contact_score r + summary_score r.

(** [req_score], computed when [job_requirements] is a non-empty list. *)
Definition req_score (skills job_requirements : list string) : Q :=
  (inject_Z (count_matching skills job_requirements)
   / inject_Z (Z.of_nat (length job_requirements)) * 20)%Q.

Definition grade_for (score : Q) (max_score : Z) : grade :=
  if Qle_bool (inject_Z max_score * (8 # 10))%Q score then A
  else if Qle_bool (inject_Z max_score * (6 # 10))%Q score then B
  else if Qle_bool (inject_Z max_score * (4 # 10))%Q score then C
  else D.

Definition calculate_resume_score (r : resume) (job_requirements : option (list string))
    : score_data :=
  let score := inject_Z (base_score r) in
  let max_score := 100 in
  let '(score, max_score) :=
    match job_requirements with
    | Some (req :: reqs) =>
        ((score + req_score (default [] (skills r)) (req :: reqs))%Q, max_score + 20)
    | _ => (score, max_score)
    end in
  {| score := score;
     max_score := max_score;
     percentage := (score / inject_Z max_score * 100)%Q;
     grade_of := grade_for score max_score |}.

(** *** Errors *)

Inductive py_error : Type := ZeroDivisionError.

Inductive result (T : Type) : Type :=
  | Ok (v : T)
  | Raise (e : py_error).
Arguments Ok {T} v.
Arguments Raise {T} e.

(** An exception leaves the rest of the block unexecuted. *)
#[global] Instance result_ret : MRet result := fun T v => Ok v.
#[global] Instance result_bind : MBind result := fun T U f m =>
  match m with
  | Ok v => f v
  | Raise e => Raise e
  end.

(** [a / b] on integers. *)
Definition py_div (a b : Z) : result Q :=
  if b =? 0 then Raise ZeroDivisionError else Ok (inject_Z a / inject_Z b)%Q.

(** A [for] loop whose body may raise. *)
Fixpoint for_each {T S : Type} (body : S -> T -> result S) (s : S) (l : list T) : result S :=
  match l with
  | [] => Ok s
  | x :: l' => s' ← body s x; for_each body s' l'
  end.

(** *** find_similar_resumes *)

Definition skill_set (r : resume) : gset string :=
  list_to_set (default [] (skills r)).

(** An element of [similarities]. *)
Record similarity : Type := {
  sim_resume : resume;
  sim_score : Q;
  common_skills : gset string
}.

Definition Qlt_bool (a b : Q) : bool := negb (Qle_bool b a).

(** [len(common_skills) / len(reference_skills.union(resume_skills))] *)
Definition similarity_score (reference_skills resume_skills : gset string) : result Q :=
  py_div (Z.of_nat (size (reference_skills ∩ resume_skills)))
         (Z.of_nat (size (reference_skills ∪ resume_skills))).

(** The body of the loop over [all_resumes]. *)
Definition similar_step (reference_skills : gset string) (similarities : list similarity)
    (r : resume) : result (list similarity) :=
  let resume_skills := skill_set r in
  if decide (resume_skills = ∅) then Ok similarities
  else
    q ← similarity_score reference_skills resume_skills;
    if Qlt_bool 0 q
    then Ok (similarities ++ [ {| sim_resume := r; sim_score := q;
                                  common_skills := reference_skills ∩ resume_skills |} ])
    else Ok similarities.

(** [similarities.sort(key=lambda x: x['score'], reverse=True)]: a stable
    sort, here by insertion; an element goes in front of the first element
    whose score is not greater than its own. *)
Fixpoint insert_desc (x : similarity) (l : list similarity) : list similarity :=
  match l with
  | [] => [x]
  | y :: l' =>
      if Qlt_bool (sim_score x) (sim_score y) then y :: insert_desc x l'
      else x :: y :: l'
  end.

Definition sort_desc (l : list similarity) : list similarity :=
  foldr insert_desc [] l.

(** [l[:limit]]: a negative [limit] counts from the end. *)
Definition slice_to (T : Type) (limit : Z) (l : list T) : list T :=
  if 0 <=? limit then take (Z.to_nat limit) l
  else take (length l - Z.to_nat (- limit))%nat l.
Arguments slice_to {T} limit l.

(** [collection.find_one({"_id": object_id})] *)
Definition find_one (collection : list resume) (object_id : ObjectId) : option resume :=
  List.find (fun r => (_id r =? object_id)%N) collection.

(** [collection.find({"_id": {"$ne": object_id}})] *)
Definition find_others (collection : list resume) (object_id : ObjectId) : list resume :=
  List.filter (fun r => negb (_id r =? object_id)%N) collection.

(** What the branch answers, before it is laid out as text. *)
Inductive similar_reply : Type :=
  | Reference_not_found
  | Reference_has_no_skills
  | No_similar_resumes
  | Similar_resumes (reference : resume) (similarities : list similarity)
  | Error_finding_similar (e : py_error).

Definition find_similar_resumes (collection : list resume) (object_id : ObjectId)
    (limit : Z) : similar_reply :=
  match find_one collection object_id with
  | None => Reference_not_found
  | Some reference_resume =>
      let reference_skills := skill_set reference_resume in
      if decide (reference_skills = ∅) then Reference_has_no_skills
      else
        let all_resumes := find_others collection object_id in
        match for_each (similar_step reference_skills) [] all_resumes with
        | Raise e => Error_finding_similar e
        | Ok similarities =>
            let similarities := slice_to limit (sort_desc similarities) in
            match similarities with
            | [] => No_similar_resumes
            | _ => Similar_resumes reference_resume similarities
            end
        end
  end.

(** *** get_database_stats *)

Definition nonempty_list (o : option (list string)) : bool :=
  match o with
  | Some (_ :: _) => true
  | _ => false
  end.

(** [collection.count_documents(query)] for the queries of the branch. *)
Definition count_documents (query : resume -> bool) (collection : list resume) : Z :=
  Z.of_nat (length (List.filter query collection)).

Definition sum_Z (l : list Z) : Z := foldr Z.add 0 l.

(** [$avg] over the documents of a [$group] stage; no document, no group. *)
Definition avg (l : list Z) : option Q :=
  match l with
  | [] => None
  | _ => Some (inject_Z (sum_Z l) / inject_Z (Z.of_nat (length l)))%Q
  end.

Definition size_of (field : resume -> option (list string)) (r : resume) : Z :=
  Z.of_nat (length (default [] (field r))).

Record averages : Type := {
  avg_skills : Q;
  avg_experience : Q;
  avg_education : Q
}.

(** The aggregation pipeline: one group when the collection has documents. *)
Definition aggregate_averages (collection : list resume) : option averages :=
  match avg (List.map (size_of skills) collection),
        avg (List.map (size_of experience) collection),
        avg (List.map (size_of education) collection) with
  | Some s, Some e, Some d =>
      Some {| avg_skills := s; avg_experience := e; avg_education := d |}
  | _, _, _ => None
  end.

(** The numbers of the report; each percentage is [count / total * 100]. *)
Record statistics : Type := {
  total_resumes : Z;
  resumes_with_skills : Z;
  resumes_with_experience : Z;
  resumes_with_education : Z;
  resumes_with_email : Z;
  resumes_with_phone : Z;
  pct_skills : Q;
  pct_experience : Q;
  pct_education : Q;
  pct_email : Q;
  pct_phone : Q;
  averages_per_resume : option averages
}.

Inductive stats_reply : Type :=
  | Database_is_empty
  | Statistics (s : statistics)
  | Error_reply (e : py_error).

Definition percent (count total : Z) : result Q :=
  q ← py_div count total; Ok (q * 100)%Q.

Definition stats_body (collection : list resume) (total_resumes : Z) : result statistics :=
  let with_skills := count_documents (fun r => nonempty_list (skills r)) collection in
  let with_experience := count_documents (fun r => nonempty_list (experience r)) collection in
  let with_education := count_documents (fun r => nonempty_list (education r)) collection in
  let with_email := count_documents (fun r => truthy (email r)) collection in
  let with_phone := count_documents (fun r => truthy (phone r)) collection in
  let averages := aggregate_averages collection in
  p_skills ← percent with_skills total_resumes;
  p_experience ← percent with_experience total_resumes;
  p_education ← percent with_education total_resumes;
  p_email ← percent with_email total_resumes;
  p_phone ← percent with_phone total_resumes;
  Ok {| total_resumes := total_resumes;
        resumes_with_skills := with_skills;
        resumes_with_experience := with_experience;
        resumes_with_education := with_education;
        resumes_with_email := with_email;
        resumes_with_phone := with_phone;
        pct_skills := p_skills;
        pct_experience := p_experience;
        pct_education := p_education;
        pct_email := p_email;
        pct_phone := p_phone;
        averages_per_resume := averages |}.

Definition get_database_stats (collection : list resume) : stats_reply :=
  let total_resumes := count_documents (fun _ => true) collection in
  if total_resumes =? 0 then Database_is_empty
  else
    match stats_body collection total_resumes with
    | Ok s => Statistics s
    | Raise e => Error_reply e
    end.

End Analyzer.

(** ** resume_analyzer_mcp.py: the other functions and branches *)

Module Tools.
Import Analyzer.

(** The three values returned by [analyze_experience_level]. *)
Inductive level : Type := entry | mid | senior.

Definition level_name (l : level) : string :=
  match l with
  | entry => "entry"
  | mid => "mid"
  | senior => "senior"
  end.

Definition analyze_experience_level (experience : list string) : level :=
  match experience with
  | [] => entry
  | _ :: _ =>
      if (length experience <=? 2)%nat then entry
      else if (length experience <=? 5)%nat then mid
      else senior
  end.

(** [sorted(l, key=key, reverse=True)]: a stable sort, by insertion; an
    element goes in front of the first element whose key is not greater than
    its own. *)
Fixpoint insert_by {T : Type} (key : T -> Z) (x : T) (l : list T) : list T :=
  match l with
  | [] => [x]
  | y :: l' => if key x <? key y then y :: insert_by key x l' else x :: y :: l'
  end.

Definition sorted_desc {T : Type} (key : T -> Z) (l : list T) : list T :=
  foldr (insert_by key) [] l.

(** *** get_experience_analysis *)

(** The dictionary [experience_levels]. *)
Record level_counts : Type := {
  entry_count : Z;
  mid_count : Z;
  senior_count : Z
}.

(** [experience_levels[level] += 1] *)
Definition bump (l : level) (c : level_counts) : level_counts :=
  match l with
  | entry => {| entry_count := entry_count c + 1; mid_count := mid_count c;
                senior_count := senior_count c |}
  | mid => {| entry_count := entry_count c; mid_count := mid_count c + 1;
              senior_count := senior_count c |}
  | senior => {| entry_count := entry_count c; mid_count := mid_count c;
                 senior_count := senior_count c + 1 |}
  end.

(** An element of [experience_details]. *)
Record experience_detail : Type := {
  detail_name : string;
  detail_level : level;
  experience_count : Z
}.

(** The body of the loop over [resumes]. *)
Definition analysis_step (acc : level_counts * list experience_detail) (r : resume)
    : level_counts * list experience_detail :=
  let level := analyze_experience_level (default [] (experience r)) in
  (bump level (fst acc),
   snd acc ++ [ {| detail_name := default "Unknown" (name r);
                   detail_level := level;
                   experience_count := Z.of_nat (length (default [] (experience r))) |} ]).

(** The numbers of the answer; each percentage is [count / total * 100], and
    [breakdown] is the list of details in the order they are printed. *)
Record experience_report : Type := {
  report_total : Z;
  levels : level_counts;
  pct_entry : Q;
  pct_mid : Q;
  pct_senior : Q;
  breakdown : list experience_detail
}.

Inductive experience_reply : Type :=
  | No_resumes_for_analysis
  | Experience_analysis (r : experience_report)
  | Experience_error (e : py_error).

Definition experience_body (resumes : list resume) : result experience_report :=
  let '(experience_levels, experience_details) :=
    foldl analysis_step
      ({| entry_count := 0; mid_count := 0; senior_count := 0 |}, []) resumes in
  let total := Z.of_nat (length resumes) in
  p_entry ← percent (entry_count experience_levels) total;
  p_mid ← percent (mid_count experience_levels) total;
  p_senior ← percent (senior_count experience_levels) total;
  Ok {| report_total := total;
        levels := experience_levels;
        pct_entry := p_entry;
        pct_mid := p_mid;
        pct_senior := p_senior;
        breakdown := sorted_desc experience_count experience_details |}.

Definition get_experience_analysis (collection : list resume) : experience_reply :=
  match collection with
  | [] => No_resumes_for_analysis
  | _ :: _ =>
      match experience_body collection with
      | Ok r => Experience_analysis r
      | Raise e => Experience_error e
      end
  end.

(** *** compare_resumes *)






(** *** analyze_skills_distribution *)

(** [$unwind]: one entry for every element of every [skills] array. *)
Definition unwind_skills (collection : list resume) : list string :=
  flat_map (fun r => default [] (skills r)) collection.

(** [$group] with [$sum: 1]: every distinct skill with its number of entries.
    The store leaves the order of the groups open; the model lists them in
    the order of [remove_dups]. *)
Definition group_count (entries : list string) : list (string * Z) :=
  List.map (fun s => (s, Z.of_nat (count_occ string_dec entries s))) (remove_dups entries).

(** A line of the answer. *)
Record skill_line : Type := {
  skill : string;
  count : Z;
  share : Q
}.

Inductive distribution_error : Type :=
  | Limit_must_be_positive
  | Python_error (e : py_error).

Inductive distribution_reply : Type :=
  | No_skills_data
  | Distribution (total_resumes : Z) (lines : list skill_line)
  | Distribution_failed (e : distribution_error).

(** The loop over [skills_data]. *)
Definition line_step (total_resumes : Z) (lines : list skill_line) (skill_info : string * Z)
    : result (list skill_line) :=
  percentage ← percent (snd skill_info) total_resumes;
  Ok (lines ++ [ {| skill := fst skill_info; count := snd skill_info;
                    share := percentage |} ]).

(** The pipeline [$unwind], [$group], [$sort] by decreasing count, [$limit];
    the store refuses a limit that is not positive. *)
Definition aggregate_skills (collection : list resume) (top_n : Z) : list (string * Z) :=
  take (Z.to_nat top_n) (sorted_desc snd (group_count (unwind_skills collection))).

Definition analyze_skills_distribution (collection : list resume) (top_n : Z)
    : distribution_reply :=
  if top_n <=? 0 then Distribution_failed Limit_must_be_positive
  else
    match aggregate_skills collection top_n with
    | [] => No_skills_data
    | skills_data =>
        let total_resumes := count_documents (fun _ => true) collection in
        match for_each (line_step total_resumes) [] skills_data with
        | Ok lines => Distribution total_resumes lines
        | Raise e => Distribution_failed (Python_error e)
        end
    end.

End Tools.

(** ** app.py: the upload *)

Module Upload.
Import App.

(** [s.endswith(suffix)] *)
Fixpoint endswith (suffix s : string) : bool :=
  if String.eqb s suffix then true
  else match s with
       | EmptyString => false
       | String _ s' => endswith suffix s'
       end.

(** [os.path.join("uploads", filename)] on a POSIX system: an absolute
    second component replaces the first one. *)
Definition upload_path (filename : string) : string :=
  if Str.startswith "/" filename then filename else "uploads/" +:+ filename.

(** The document that [collection.insert_one(data)] stores for the record
    [data]: the seven fields, and the identifier given by the store. *)
Definition stored (inserted_id : Analyzer.ObjectId) (data : info) : Analyzer.resume :=
  {| Analyzer._id := inserted_id;
     Analyzer.name := Some (name data);
     Analyzer.email := Some (email data);
     Analyzer.phone := Some (phone data);
     Analyzer.skills := Some (skills data);
     Analyzer.experience := Some (experience data);
     Analyzer.education := Some (education data);
     Analyzer.summary := Some (summary data) |}.

(** What a call to a collaborator gives: a value, or an exception with its
    message. *)
Inductive outcome (T : Type) : Type :=
  | Returns (v : T)
  | Raises (message : string).
Arguments Returns {T} v.
Arguments Raises {T} message.

(** The part of the world that the route reads and writes: the paths of the
    files that exist, and the documents of the collection. *)
Record state : Type := {
  files : gset string;
  collection : list Analyzer.resume
}.

Inductive response : Type :=
  | Bad_request (message : string)                            (* 400 *)
  | Success (data : info) (inserted_id : Analyzer.ObjectId)   (* 200 *)
  | Server_error (message : string).                          (* 500 *)

(** [upload_resume]. The request is given by the file name under the key
    ["resume"], if there is one; [pdf_text] is what [extract_text_from_pdf]
    gives for the saved file, [nlp] the entities that the recognizer finds
    in a text, and [insert_one] what the store answers to the insertion.
    Saving the file and removing it are taken to succeed. *)
Definition upload_resume (nlp : string -> list entity)
    (resume_file : option string) (pdf_text : outcome string)
    (insert_one : outcome Analyzer.ObjectId) (st : state) : response * state :=
  match resume_file with
  | None => (Bad_request "No file uploaded", st)
  | Some filename =>
      if String.eqb filename "" then (Bad_request "No file selected", st)
      else if negb (endswith ".pdf" (Str.lower filename))
      then (Bad_request "Only PDF files are allowed", st)
      else
        let file_path := upload_path filename in
        let saved := {[ file_path ]} ∪ files st in
        let removed := saved ∖ {[ file_path ]} in
        match pdf_text with
        | Raises message =>
            (Server_error ("Processing error: " +:+ message),
             {| files := removed; collection := collection st |})
        | Returns text =>
            let data := extract_info text (nlp text) in
            match insert_one with
            | Raises message =>
                (Server_error ("Processing error: " +:+ message),
                 {| files := removed; collection := collection st |})
            | Returns inserted_id =>
                (Success data inserted_id,
                 {| files := removed;
                    collection := collection st ++ [stored inserted_id data] |})
            end
        end
  end.

End Upload.

(** ** Notions used to state the properties *)

Module Notions.
Import Analyzer.

(** A requirement is matched when some skill contains it, whatever the case. *)
Definition satisfied (skills : list string) (req : string) : bool :=
  existsb (fun skill => Str.contains (Str.lower req) (Str.lower skill)) skills.

Definition grade_rank (g : grade) : nat :=
  match g with
  | A => 3
  | B => 2
  | C => 1
  | D => 0
  end.

(** Sample records.

    A record with 5 skills, 5 experience entries, 2 education entries, an
    email and a phone: base score 15+35+20+10 = 80. *)
Definition eighty_record : resume :=
  {| _id := 2%N;
     name := Some "Grace Hopper";
     email := Some "grace@example.org";
     phone := Some "0123456789";
     skills := Some ["Python"; "Java"; "SQL"; "Excel"; "C++"];
     experience := Some ["Worked at A"; "Worked at B"; "Project C"; "Internship D";
                         "Role E"];
     education := Some ["BSc Mathematics"; "PhD Mathematics"];
     summary := None |}.

Definition full_record : resume :=
  {| _id := 1%N;
     name := Some "Ada Lovelace";
     email := Some "ada@example.org";
     phone := Some "0123456789";
     skills := Some ["Python"; "Java"; "SQL"; "Excel"; "C++"; "Pandas"; "Numpy";
                     "React"; "HTML"; "CSS"];
     experience := Some ["Worked at A"; "Worked at B"; "Project C"; "Internship D";
                         "Role E"];
     education := Some ["BSc Mathematics"; "MSc Computing"];
     summary := Some "Engineer with ten years of experience in numerical software." |}.

Definition one_skill_record : resume :=
  {| _id := 3%N; name := None; email := None; phone := None;
     skills := Some ["Python"]; experience := None; education := None;
     summary := None |}.


(** The Jaccard index of two skill sets. *)
Definition jaccard (a b : gset string) : Q :=
  (inject_Z (Z.of_nat (size (a ∩ b))) / inject_Z (Z.of_nat (size (a ∪ b))))%Q.

(** The entry that the ranking holds for a resume. *)
Definition entry_for (reference_skills : gset string) (r : resume) : similarity :=
  {| sim_resume := r;
     sim_score := jaccard reference_skills (skill_set r);
     common_skills := reference_skills ∩ skill_set r |}.

(** The resumes to rank: not the reference itself, and a positive index. *)
Definition is_candidate (object_id : ObjectId) (reference_skills : gset string)
    (r : resume) : bool :=
  negb (_id r =? object_id)%N && Qlt_bool 0 (jaccard reference_skills (skill_set r)).

(** The ranking carried by a reply; the reply for an empty ranking is
    [No_similar_resumes]. *)
Definition ranking_of (reply : similar_reply) : option (list similarity) :=
  match reply with
  | Similar_resumes _ l => Some l
  | No_similar_resumes => Some []
  | _ => None
  end.

(** Descending order of the scores. *)
Definition score_ge (x y : similarity) : Prop := (sim_score y <= sim_score x)%Q.

Definition same_score (q : Q) (e : similarity) : bool := Qeq_bool (sim_score e) q.

Definition with_skills (i : N) (l : list string) : resume :=
  {| _id := i; name := None; email := None; phone := None;
     skills := Some l; experience := None; education := None; summary := None |}.

(** A collection of five resumes; the third one has no skills. *)
Definition sample_collection : list resume :=
  [ with_skills 1 ["Python"; "Java"];
    with_skills 2 ["Java"];
    with_skills 3 [];
    with_skills 4 ["Python"];
    with_skills 5 ["Go"] ].


(** [needle] occurs in [hay]. *)
Definition substring_of (needle hay : string) : Prop :=
  exists pre post : string, hay = pre +:+ needle +:+ post.

(** A line that contains an experience keyword, whatever the case. *)
Definition experience_line (line : string) : bool :=
  existsb (fun word => Str.contains (Str.lower word) (Str.lower line))
          App.experience_keywords.


(** *** What a pattern matches

    [all_chars cls s]: every character of [s] is in the class;
    [last_char prev s]: the character before the position reached after
    reading [s] from a position that has [prev] before it. *)
Fixpoint all_chars (cls : ascii -> bool) (s : string) : bool :=
  match s with
  | EmptyString => true
  | String c s' => cls c && all_chars cls s'
  end.

Fixpoint last_char (prev : option ascii) (s : string) : option ascii :=
  match s with
  | EmptyString => prev
  | String c s' => last_char (Some c) s'
  end.

Definition within (lo : nat) (hi : option nat) (n : nat) : Prop :=
  (lo <= n)%nat /\ match hi with Some h => (n <= h)%nat | None => True end.

(** [matches p prev m rest]: at a position that has [prev] before it and the
    text [m +:+ rest] after it, the pattern [p] can match [m]. *)
Inductive matches : Re.pattern -> option ascii -> string -> string -> Prop :=
  | matches_nil (prev : option ascii) (rest : string) :
      matches [] prev EmptyString rest
  | matches_boundary (p : Re.pattern) (prev : option ascii) (m rest : string) :
      Re.at_boundary prev (m +:+ rest) = true ->
      matches p prev m rest ->
      matches (Re.Boundary :: p) prev m rest
  | matches_lit (c : ascii) (p : Re.pattern) (prev : option ascii) (m rest : string) :
      matches p (Some c) m rest ->
      matches (Re.Lit c :: p) prev (String c m) rest
  | matches_rep (cls : ascii -> bool) (lo : nat) (hi : option nat) (p : Re.pattern)
        (prev : option ascii) (run m rest : string) :
      all_chars cls run = true ->
      within lo hi (String.length run) ->
      matches p (last_char prev run) m rest ->
      matches (Re.Rep cls lo hi :: p) prev (run +:+ m) rest.

(** What a successful greedy repetition has done: it has read a run of
    characters of the class, of an allowed length, and the continuation [k]
    has matched after it. *)
Definition rep_result (cls : ascii -> bool) (k : option ascii -> string -> option string)
    (lo : nat) (hi : option nat) (prev : option ascii) (s m : string) : Prop :=
  exists run m' s' : string,
    m = run +:+ m' /\ s = run +:+ s' /\
    all_chars cls run = true /\ within lo hi (String.length run) /\
    k (last_char prev run) s' = Some m'.

(** [m] occurs in [txt] after [pre] and satisfies [shape], and no occurrence
    that satisfies it starts earlier. *)
Definition first_occurrence (shape : option ascii -> string -> string -> Prop)
    (txt m : string) : Prop :=
  exists pre post : string,
    txt = pre +:+ m +:+ post /\
    shape (last_char None pre) m post /\
    forall pre' m' post' : string,
      txt = pre' +:+ m' +:+ post' ->
      shape (last_char None pre') m' post' ->
      (String.length pre <= String.length pre')%nat.

Definition no_occurrence (shape : option ascii -> string -> string -> Prop)
    (txt : string) : Prop :=
  forall pre m post : string,
    txt = pre +:+ m +:+ post -> ~ shape (last_char None pre) m post.

(** An email address: a local part, [@], a domain, a dot and a top-level
    segment of 2 to 4 characters of the class [tld], between two word
    boundaries. *)
Definition email_shape_with (tld : ascii -> bool) (prev : option ascii)
    (e post : string) : Prop :=
  exists local domain top : string,
    e = local +:+ "@" +:+ domain +:+ "." +:+ top /\
    (1 <= String.length local)%nat /\ all_chars App.addr_char local = true /\
    (1 <= String.length domain)%nat /\ all_chars App.addr_char domain = true /\
    (2 <= String.length top <= 4)%nat /\ all_chars tld top = true /\
    Re.at_boundary prev (e +:+ post) = true /\
    Re.at_boundary (last_char prev e) post = true.

(** The pattern of the code: the top-level segment is made of word
    characters (letters, digits, underscore). *)
Definition email_shape : option ascii -> string -> string -> Prop :=
  email_shape_with Char.is_word.

(** Ten digits between two word boundaries. *)
Definition phone_shape (prev : option ascii) (p post : string) : Prop :=
  String.length p = 10%nat /\ all_chars Char.is_digit p = true /\
  Re.at_boundary prev (p +:+ post) = true /\
  Re.at_boundary (last_char prev p) post = true.


(** A field filled by [re.search]: empty when the text has no occurrence of
    the shape, the first occurrence otherwise. *)
Definition field_of (shape : option ascii -> string -> string -> Prop)
    (txt field : string) : Prop :=
  (field = "" /\ no_occurrence shape txt) \/ first_occurrence shape txt field.

End Notions.

(** ** Notions used for the other properties *)

Module MoreNotions.
Import Analyzer Notions Tools.

(** [r'] has at least what [r] has: every skill of [r], at least as many
    skills, experience entries and education entries, an email and a phone
    when [r] has them, and a summary that counts when the one of [r] does. *)
Record at_least (r r' : resume) : Prop := {
  more_skills : forall s, In s (default [] (skills r)) -> In s (default [] (skills r'));
  more_skill_entries :
    (length (default [] (skills r)) <= length (default [] (skills r')))%nat;
  more_experience :
    (length (default [] (experience r)) <= length (default [] (experience r')))%nat;
  more_education :
    (length (default [] (education r)) <= length (default [] (education r')))%nat;
  more_email : truthy (email r) = true -> truthy (email r') = true;
  more_phone : truthy (phone r) = true -> truthy (phone r') = true;
  more_summary : summary_score r <= summary_score r'
}.

(** A requirement is looked at through its lowercase form only. *)
Definition satisfied_lower (skills : list string) (lowered : string) : bool :=
  existsb (fun skill => Str.contains lowered (Str.lower skill)) skills.


(** Descending order of the keys. *)
Definition key_ge {T : Type} (key : T -> Z) (x y : T) : Prop := key y <= key x.

Definition same_key {T : Type} (key : T -> Z) (k : Z) (x : T) : bool := key x =? k.

Definition level_rank (l : level) : nat :=
  match l with
  | entry => 0
  | mid => 1
  | senior => 2
  end.

(** The level of a resume, and the detail that the analysis holds for it. *)
Definition level_of (r : resume) : level :=
  analyze_experience_level (default [] (experience r)).

Definition detail_of (r : resume) : experience_detail :=
  {| detail_name := default "Unknown" (name r);
     detail_level := level_of r;
     experience_count := Z.of_nat (length (default [] (experience r))) |}.

Definition has_level (l : level) (r : resume) : bool :=
  Nat.eqb (level_rank (level_of r)) (level_rank l).

Definition count_level (l : level) (collection : list resume) : Z :=
  Z.of_nat (length (List.filter (has_level l) collection)).


(** Three records with the identifiers 1, 2 and 3: base scores 100, 80, 3. *)
Definition three_records : list resume := [full_record; eighty_record; one_skill_record].


(** The line that the distribution prints for an entry of [skills_data]. *)
Definition line_of (total_resumes : Z) (skill_info : string * Z) : skill_line :=
  {| skill := fst skill_info;
     count := snd skill_info;
     share := (inject_Z (snd skill_info) / inject_Z total_resumes * 100)%Q |}.

(** A collection in which the second document repeats a skill. *)
Definition skilled_collection : list resume :=
  [ with_skills 1 ["Python"; "Java"];
    with_skills 2 ["Java"; "Java"; "SQL"];
    with_skills 3 [] ].


(** An entity that can give the name: a person with a text. *)
Definition names_person (ent : App.entity) : bool :=
  String.eqb (App.label_ ent) "PERSON" && negb (String.eqb (App.text ent) "").

(** A paragraph that can be the summary. *)
Definition long_paragraph (p : string) : bool := (50 <? String.length (Str.strip p))%nat.


(** A request that passes the three tests of the upload: a file under the
    key ["resume"], with a name that is not empty and ends in [.pdf],
    whatever the case. *)
Definition acceptable (resume_file : option string) : Prop :=
  exists filename stem : string,
    resume_file = Some filename /\ filename <> "" /\
    Str.lower filename = stem +:+ ".pdf".

(** The documents stored for a list of uploads, each given by the identifier
    that the store assigns, the text of the file and its entities. *)
Definition uploaded (inputs : list (ObjectId * string * list App.entity)) : list resume :=
  List.map (fun '(inserted_id, txt, ents) =>
              Upload.stored inserted_id (App.extract_info txt ents)) inputs.


(** [increasing_percentages n s]: in binary64 arithmetic the percentage
    [(s / 100) * 100] of the score [s] is smaller than the one of [s + 1],
    and so on for [n] scores. *)
Fixpoint increasing_percentages (n : nat) (s : float) : bool :=
  match n with
  | O => true
  | S n' =>
      PrimFloat.ltb (s / 100 * 100) ((s + 1) / 100 * 100)%float
      && increasing_percentages n' (s + 1)%float
  end%float.

End MoreNotions.
(** * Properties *)

(** ** Strings *)

Section StringFacts.

Lemma startswith_spec (p s : string) :
  Str.startswith p s = true <-> exists post, s = p +:+ post.
Proof.
  revert s; induction p as [|a p IH]; intros s; simpl.
  - split; [intros _; exists s; reflexivity | reflexivity].
  - destruct s as [|b s].
    + split; [discriminate | intros [post H]; discriminate].
    + destruct (Ascii.eqb_spec a b) as [->|Hne].
      * rewrite IH. split; intros [post H]; exists post.
        -- rewrite H. reflexivity.
        -- change (String b s = String b (p +:+ post)) in H. congruence.
      * split; [discriminate | intros [post H]].
        change (String b s = String a (p +:+ post)) in H. congruence.
Qed.

(** [needle in hay] holds exactly when [hay] is some text, then [needle],
    then some text. *)
Lemma contains_spec (needle hay : string) :
  Str.contains needle hay = true <-> exists pre post, hay = pre +:+ needle +:+ post.
Proof.
  induction hay as [|c hay IH]; simpl.
  - destruct (Str.startswith needle "") eqn:E.
    + apply startswith_spec in E as [post E]. split; [intros _|reflexivity].
      exists "", post. exact E.
    + split; [discriminate|]. intros [pre [post H]].
      destruct pre; [|discriminate].
      assert (Str.startswith needle "" = true)
        by (apply startswith_spec; exists post; exact H).
      congruence.
  - destruct (Str.startswith needle (String c hay)) eqn:E.
    + apply startswith_spec in E as [post E]. split; [intros _|reflexivity].
      exists "", post. exact E.
    + rewrite IH. split.
      * intros [pre [post H]]. exists (String c pre), post. rewrite H. reflexivity.
      * intros [pre [post H]]. destruct pre as [|c' pre].
        -- assert (Str.startswith needle (String c hay) = true)
             by (apply startswith_spec; exists post; exact H).
           congruence.
        -- exists pre, post.
           change (String c hay = String c' (pre +:+ needle +:+ post)) in H.
           congruence.
Qed.

Lemma contains_empty (hay : string) : Str.contains "" hay = true.
Proof. destruct hay; reflexivity. Qed.

End StringFacts.

(** ** Scoring *)

Module ScoreFacts.
Import Analyzer Notions.

Lemma requirement_matched_existsb (req : string) (skills : list string) :
  requirement_matched req skills = satisfied skills req.
Proof.
  unfold satisfied. induction skills as [|skill skills IH]; simpl; [reflexivity|].
  rewrite IH. destruct (Str.contains _ _); reflexivity.
Qed.

Lemma matching_loop (skills reqs : list string) (acc : Z) :
  foldl (matching_step skills) acc reqs
  = acc + Z.of_nat (length (List.filter (satisfied skills) reqs)).
Proof.
  revert acc; induction reqs as [|req reqs IH]; intros acc; simpl; [lia|].
  rewrite IH. unfold matching_step. rewrite requirement_matched_existsb.
  destruct (satisfied skills req); simpl length; lia.
Qed.

Lemma count_matching_filter (skills reqs : list string) :
  count_matching skills reqs = Z.of_nat (length (List.filter (satisfied skills) reqs)).
Proof. unfold count_matching. rewrite matching_loop. lia. Qed.

Lemma filter_length_le {T : Type} (f : T -> bool) (l : list T) :
  (length (List.filter f l) <= length l)%nat.
Proof. induction l as [|x l IH]; simpl; [lia|]. destruct (f x); simpl; lia. Qed.

Lemma count_matching_range (skills reqs : list string) :
  0 <= count_matching skills reqs <= Z.of_nat (length reqs).
Proof.
  rewrite count_matching_filter.
  pose proof (filter_length_le (satisfied skills) reqs). lia.
Qed.

Lemma base_score_range (r : resume) : 0 <= base_score r <= 100.
Proof.
  unfold base_score, skills_score, exp_score, edu_score, contact_score, summary_score.
  destruct (truthy (email r)), (truthy (phone r)),
    (negb (String.eqb (default "" (summary r)) "") && _)%bool; lia.
Qed.

(** The bonus is a fraction of 20. *)
Lemma req_score_range (skills reqs : list string) :
  reqs <> [] -> (0 <= req_score skills reqs /\ req_score skills reqs <= 20)%Q.
Proof.
  intros Hne. unfold req_score.
  pose proof (count_matching_range skills reqs) as [Hlo Hhi].
  assert (Hlen : 0 < Z.of_nat (length reqs)) by (destruct reqs; [congruence|simpl; lia]).
  set (m := count_matching skills reqs) in *. set (n := Z.of_nat (length reqs)) in *.
  assert (Hn : (0 < inject_Z n)%Q) by (rewrite <- (Zlt_Qlt 0); exact Hlen).
  assert (Hq : (0 <= inject_Z m / inject_Z n /\ inject_Z m / inject_Z n <= 1)%Q).
  { split.
    - apply Qle_shift_div_l; [exact Hn|]. rewrite Qmult_0_l. rewrite <- (Zle_Qle 0). exact Hlo.
    - apply Qle_shift_div_r; [exact Hn|]. rewrite Qmult_1_l. rewrite <- Zle_Qle. exact Hhi. }
  destruct Hq as [Hq0 Hq1]. split.
  - apply Qmult_le_0_compat; [exact Hq0|discriminate].
  - apply Qle_trans with (1 * 20)%Q; [|discriminate].
    apply Qmult_le_compat_r; [exact Hq1|discriminate].
Qed.

End ScoreFacts.

Module ScoreTheorems.
Import Analyzer Notions ScoreFacts.

Lemma truthy_nonempty (o : option string) : truthy o = true <-> default "" o <> "".
Proof.
  destruct o as [s|]; simpl.
  - destruct (String.eqb_spec s ""); simpl; split; congruence.
  - split; congruence.
Qed.

Lemma score_unfold_none (r : resume) (jr : option (list string)) :
  default [] jr = [] ->
  calculate_resume_score r jr
  = {| score := inject_Z (base_score r); max_score := 100;
       percentage := (inject_Z (base_score r) / inject_Z 100 * 100)%Q;
       grade_of := grade_for (inject_Z (base_score r)) 100 |}.
Proof.
  destruct jr as [[|req reqs]|]; intros H;
    [reflexivity | simpl in H; discriminate H | reflexivity].
Qed.

Lemma score_unfold_some (r : resume) (reqs : list string) :
  reqs <> [] ->
  calculate_resume_score r (Some reqs)
  = let s := (inject_Z (base_score r) + req_score (default [] (skills r)) reqs)%Q in
    {| score := s; max_score := 120;
       percentage := (s / inject_Z 120 * 100)%Q;
       grade_of := grade_for s 120 |}.
Proof. destruct reqs as [|req reqs]; [congruence|reflexivity]. Qed.

(** C1. For every record and every optional list of job requirements the
    score lies between 0 and [max_score]; [max_score] is 100 without
    requirements (absent or empty list) and 120 with a non-empty list; every
    requirement counts at most once, namely when some skill contains it
    whatever the case, and the score is then the base score plus
    [(matches / |job_requirements|) * 20]. *)
Theorem calculate_resume_score_bounds
    (r : resume) (job_requirements : option (list string)) :
  let sd := calculate_resume_score r job_requirements in
  let reqs := default [] job_requirements in
  let matches := List.filter (satisfied (default [] (skills r))) reqs in
  (0 <= score sd)%Q /\ (score sd <= inject_Z (max_score sd))%Q /\
  max_score sd = match reqs with [] => 100 | _ :: _ => 120 end /\
  (length matches <= length reqs)%nat /\
  score sd = match reqs with
             | [] => inject_Z (base_score r)
             | _ :: _ =>
                 (inject_Z (base_score r)
                  + inject_Z (Z.of_nat (length matches))
                    / inject_Z (Z.of_nat (length reqs)) * 20)%Q
             end.
Proof.
  pose proof (base_score_range r) as [Hlo Hhi].
  assert (Hb0 : (0 <= inject_Z (base_score r))%Q) by (rewrite <- (Zle_Qle 0); exact Hlo).
  assert (Hb1 : (inject_Z (base_score r) <= inject_Z 100)%Q) by (rewrite <- Zle_Qle; exact Hhi).
  destruct job_requirements as [[|req reqs]|]; cbv zeta.
  - rewrite score_unfold_none by reflexivity. simpl.
    repeat split; first [assumption | reflexivity | lia].
  - rewrite score_unfold_some by discriminate.
    destruct (req_score_range (default [] (skills r)) (req :: reqs)) as [Hr0 Hr1];
      [discriminate|].
    cbv zeta. cbn [score max_score default].
    split; [|split; [|split; [|split]]].
    + apply (Qplus_le_compat 0 _ 0 _ Hb0 Hr0).
    + apply Qle_trans with (inject_Z 100 + 20)%Q; [|discriminate].
      apply Qplus_le_compat; assumption.
    + reflexivity.
    + apply filter_length_le.
    + unfold req_score. rewrite count_matching_filter. reflexivity.
  - rewrite score_unfold_none by reflexivity. simpl.
    repeat split; first [assumption | reflexivity | lia].
Qed.

(** C2. A record with exactly 10 skills, 5 experience entries, 2 education
    entries, a non-empty email, a non-empty phone and a summary longer than
    50 characters, scored without job requirements, gets the score 100
    (30+35+20+10+5) out of 100, the percentage 100 and the grade A. *)
Theorem full_record_scores_100 (r : resume) (job_requirements : option (list string)) :
  default [] job_requirements = [] ->
  length (default [] (skills r)) = 10%nat ->
  length (default [] (experience r)) = 5%nat ->
  length (default [] (education r)) = 2%nat ->
  default "" (email r) <> "" ->
  default "" (phone r) <> "" ->
  (50 < String.length (default "" (summary r)))%nat ->
  let sd := calculate_resume_score r job_requirements in
  skills_score r = 30 /\ exp_score r = 35 /\ edu_score r = 20 /\
  contact_score r = 10 /\ summary_score r = 5 /\
  score sd = inject_Z 100 /\ max_score sd = 100 /\
  (percentage sd == 100)%Q /\ grade_of sd = A.
Proof.
  intros Hjr Hs Hx He Hemail Hphone Hsum sd.
  assert (S1 : skills_score r = 30) by (unfold skills_score; rewrite Hs; reflexivity).
  assert (S2 : exp_score r = 35) by (unfold exp_score; rewrite Hx; reflexivity).
  assert (S3 : edu_score r = 20) by (unfold edu_score; rewrite He; reflexivity).
  assert (S4 : contact_score r = 10).
  { unfold contact_score. apply truthy_nonempty in Hemail, Hphone.
    rewrite Hemail, Hphone. reflexivity. }
  assert (S5 : summary_score r = 5).
  { unfold summary_score. cbv zeta.
    destruct (String.eqb_spec (default "" (summary r)) "") as [E|_].
    - rewrite E in Hsum. simpl in Hsum. lia.
    - apply Nat.ltb_lt in Hsum. rewrite Hsum. reflexivity. }
  assert (Hbase : base_score r = 100) by (unfold base_score; lia).
  subst sd. rewrite (score_unfold_none r job_requirements Hjr), Hbase. simpl.
  repeat split; try assumption; reflexivity.
Qed.

Lemma full_record_scores_100_witness :
  let sd := calculate_resume_score full_record None in
  skills_score full_record = 30 /\ exp_score full_record = 35 /\
  edu_score full_record = 20 /\ contact_score full_record = 10 /\
  summary_score full_record = 5 /\
  score sd = inject_Z 100 /\ max_score sd = 100 /\
  (percentage sd == 100)%Q /\ grade_of sd = A.
Proof.
  apply (full_record_scores_100 full_record None); simpl;
    first [reflexivity | discriminate | lia].
Defined.

End ScoreTheorems.

Module GradeTheorems.
Import Analyzer Notions ScoreFacts ScoreTheorems.

Lemma Qle_bool_false (a b : Q) : Qle_bool a b = false <-> (b < a)%Q.
Proof.
  pose proof (Qle_bool_iff a b) as H. destruct (Qle_bool a b).
  - split; [discriminate|]. intros Hlt. assert (a <= b)%Q by (apply H; reflexivity). lra.
  - split; [|reflexivity]. intros _. destruct (Qlt_le_dec b a) as [Hlt|Hle]; [exact Hlt|].
    apply H in Hle. discriminate.
Qed.

(** The grade read on the score, for a positive maximum [m]. *)
Lemma grade_for_cases (s : Q) (m : Z) :
  0 < m ->
  (grade_for s m = A <-> (inject_Z m * (8 # 10) <= s)%Q) /\
  (grade_for s m = B <-> (inject_Z m * (6 # 10) <= s /\ s < inject_Z m * (8 # 10))%Q) /\
  (grade_for s m = C <-> (inject_Z m * (4 # 10) <= s /\ s < inject_Z m * (6 # 10))%Q) /\
  (grade_for s m = D <-> (s < inject_Z m * (4 # 10))%Q).
Proof.
  intros Hm. assert (Hq : (0 < inject_Z m)%Q) by (rewrite <- (Zlt_Qlt 0); exact Hm).
  unfold grade_for.
  destruct (Qle_bool (inject_Z m * (8 # 10)) s) eqn:E8;
    [apply Qle_bool_iff in E8|apply Qle_bool_false in E8].
  { repeat split; intros; first [congruence | lra]. }
  destruct (Qle_bool (inject_Z m * (6 # 10)) s) eqn:E6;
    [apply Qle_bool_iff in E6|apply Qle_bool_false in E6].
  { repeat split; intros; first [congruence | lra]. }
  destruct (Qle_bool (inject_Z m * (4 # 10)) s) eqn:E4;
    [apply Qle_bool_iff in E4|apply Qle_bool_false in E4].
  { repeat split; intros; first [congruence | lra]. }
  repeat split; intros; first [congruence | lra].
Qed.

Lemma filter_all {T : Type} (f : T -> bool) (l : list T) :
  forallb f l = true -> List.filter f l = l.
Proof.
  induction l as [|x l IH]; simpl; [reflexivity|].
  intros H. apply andb_true_iff in H as [Hx Hl]. rewrite Hx, IH by exact Hl. reflexivity.
Qed.

Lemma filter_none {T : Type} (f : T -> bool) (l : list T) :
  existsb f l = false -> List.filter f l = [].
Proof.
  induction l as [|x l IH]; simpl; [reflexivity|].
  intros H. apply orb_false_iff in H as [Hx Hl]. rewrite Hx. exact (IH Hl).
Qed.

Lemma req_score_all (skills reqs : list string) :
  reqs <> [] -> forallb (satisfied skills) reqs = true -> (req_score skills reqs == 20)%Q.
Proof.
  intros Hne Hall. unfold req_score. rewrite count_matching_filter, filter_all by exact Hall.
  assert (Hn : ~ (inject_Z (Z.of_nat (length reqs)) == 0)%Q).
  { destruct reqs; [congruence|]. discriminate. }
  field. exact Hn.
Qed.

Lemma req_score_none (skills reqs : list string) :
  existsb (satisfied skills) reqs = false -> (req_score skills reqs == 0)%Q.
Proof.
  intros Hnone. unfold req_score. rewrite count_matching_filter, filter_none by exact Hnone.
  simpl. unfold Qdiv. rewrite !Qmult_0_l. reflexivity.
Qed.

Lemma percentage_threshold (s t : Q) :
  (t <= s / inject_Z 120 * 100 <-> t * (120 # 100) <= s)%Q.
Proof.
  assert (E : (s / inject_Z 120 * 100 == s * (100 # 120))%Q) by (field; discriminate).
  rewrite E. split; intros H; lra.
Qed.

(** C3, as the code has it. With a non-empty list of job requirements the
    maximum is 120 and the grade is read on the percentage of that extended
    maximum: A from 80, B from 60, C from 40, D below. The grade need not be
    the one obtained without job requirements: it is at least as good when
    every requirement is matched, and at most as good when none is. *)
Theorem grade_with_requirements (r : resume) (reqs : list string) :
  reqs <> [] ->
  let with_reqs := calculate_resume_score r (Some reqs) in
  let without := calculate_resume_score r None in
  let pct := percentage with_reqs in
  max_score with_reqs = 120 /\
  (grade_of with_reqs = A <-> (80 <= pct)%Q) /\
  (grade_of with_reqs = B <-> (60 <= pct /\ pct < 80)%Q) /\
  (grade_of with_reqs = C <-> (40 <= pct /\ pct < 60)%Q) /\
  (grade_of with_reqs = D <-> (pct < 40)%Q) /\
  (forallb (satisfied (default [] (skills r))) reqs = true ->
   (grade_rank (grade_of without) <= grade_rank (grade_of with_reqs))%nat) /\
  (existsb (satisfied (default [] (skills r))) reqs = false ->
   (grade_rank (grade_of with_reqs) <= grade_rank (grade_of without))%nat).
Proof.
  intros Hne. cbv zeta.
  rewrite score_unfold_some by exact Hne.
  rewrite (score_unfold_none r None) by reflexivity.
  cbv zeta. cbn [max_score grade_of percentage].
  set (b := inject_Z (base_score r)).
  set (q := req_score (default [] (skills r)) reqs).
  destruct (grade_for_cases (b + q)%Q 120) as (HA & HB & HC & HD); [lia|].
  destruct (grade_for_cases b 100) as (HA' & HB' & HC' & HD'); [lia|].
  assert (P : forall t : Q,
    (t <= (b + q) / inject_Z 120 * 100 <-> t * (120 # 100) <= b + q)%Q)
    by (intros t; apply percentage_threshold).
  assert (P' : forall t : Q,
    ((b + q) / inject_Z 120 * 100 < t <-> b + q < t * (120 # 100))%Q).
  { intros t. pose proof (P t) as Ht. split; intros H.
    - apply Qnot_le_lt. intros H'. apply Ht in H'. lra.
    - apply Qnot_le_lt. intros H'. apply Ht in H'. lra. }
  change (inject_Z 120) with 120%Q in HA, HB, HC, HD.
  change (inject_Z 100) with 100%Q in HA', HB', HC', HD'.
  split; [reflexivity|].
  split; [rewrite HA, (P 80%Q); split; intros H; lra|].
  split; [rewrite HB, (P 60%Q), (P' 80%Q); split; intros H; lra|].
  split; [rewrite HC, (P 40%Q), (P' 60%Q); split; intros H; lra|].
  split; [rewrite HD, (P' 40%Q); split; intros H; lra|].
  split.
  - intros Hall. pose proof (req_score_all _ _ Hne Hall) as Hq. fold q in Hq.
    destruct (grade_for b 100) eqn:G'; destruct (grade_for (b + q) 120) eqn:G;
      simpl; try lia; exfalso;
      repeat match goal with
             | H : _ <-> _ |- _ =>
                 first [ pose proof (proj1 H eq_refl); clear H | clear H ]
             end; lra.
  - intros Hnone. pose proof (req_score_none _ _ Hnone) as Hq. fold q in Hq.
    destruct (grade_for b 100) eqn:G'; destruct (grade_for (b + q) 120) eqn:G;
      simpl; try lia; exfalso;
      repeat match goal with
             | H : _ <-> _ |- _ =>
                 first [ pose proof (proj1 H eq_refl); clear H | clear H ]
             end; lra.
Qed.

Lemma grade_with_requirements_witness :
  let with_reqs := calculate_resume_score eighty_record (Some ["Rust"]) in
  let without := calculate_resume_score eighty_record None in
  let pct := percentage with_reqs in
  max_score with_reqs = 120 /\
  (grade_of with_reqs = A <-> (80 <= pct)%Q) /\
  (grade_of with_reqs = B <-> (60 <= pct /\ pct < 80)%Q) /\
  (grade_of with_reqs = C <-> (40 <= pct /\ pct < 60)%Q) /\
  (grade_of with_reqs = D <-> (pct < 40)%Q) /\
  (forallb (satisfied (default [] (skills eighty_record))) ["Rust"] = true ->
   (grade_rank (grade_of without) <= grade_rank (grade_of with_reqs))%nat) /\
  (existsb (satisfied (default [] (skills eighty_record))) ["Rust"] = false ->
   (grade_rank (grade_of with_reqs) <= grade_rank (grade_of without))%nat).
Proof. apply (grade_with_requirements eighty_record ["Rust"]). discriminate. Defined.

(** C3, as stated, fails: the record [eighty_record] has the grade A without
    job requirements (80 of 100) and the grade B with the unmatched
    requirement "Rust" (80 of 120). *)
Lemma grade_depends_on_requirements :
  grade_of (calculate_resume_score eighty_record None) = A /\
  grade_of (calculate_resume_score eighty_record (Some ["Rust"])) = B /\
  grade_of (calculate_resume_score eighty_record (Some ["Rust"]))
  <> grade_of (calculate_resume_score eighty_record None).
Proof. vm_compute. repeat split; discriminate. Qed.

Lemma count_occ_le_filter (skills reqs : list string) :
  skills <> [] ->
  (count_occ string_dec reqs "" <= length (List.filter (satisfied skills) reqs))%nat.
Proof.
  intros Hne. induction reqs as [|req reqs IH]; simpl; [lia|].
  destruct (string_dec req "") as [->|Hreq].
  - assert (Hs : satisfied skills "" = true).
    { destruct skills as [|skill skills]; [congruence|].
      unfold satisfied. simpl. rewrite contains_empty. reflexivity. }
    rewrite Hs. simpl. lia.
  - destruct (satisfied skills req); simpl; lia.
Qed.

(** C9. When the record has at least one skill and the empty string is among
    the job requirements, the loop counts every empty requirement as matched
    (the empty string is contained in the first skill), so the bonus is
    positive and the score exceeds the base score. *)
Theorem empty_requirement_always_matches (r : resume) (reqs : list string) :
  default [] (skills r) <> [] ->
  In "" reqs ->
  requirement_matched "" (default [] (skills r)) = true /\
  Z.of_nat (count_occ string_dec reqs "") <= count_matching (default [] (skills r)) reqs /\
  (0 < req_score (default [] (skills r)) reqs)%Q /\
  (inject_Z (base_score r) < score (calculate_resume_score r (Some reqs)))%Q.
Proof.
  intros Hsk Hin. set (sk := default [] (skills r)) in *.
  assert (Hne : reqs <> []) by (destruct reqs; [destruct Hin|discriminate]).
  assert (H1 : requirement_matched "" sk = true).
  { destruct sk as [|skill sk']; [congruence|]. simpl. rewrite contains_empty. reflexivity. }
  assert (H2 : Z.of_nat (count_occ string_dec reqs "") <= count_matching sk reqs).
  { rewrite count_matching_filter. pose proof (count_occ_le_filter sk reqs Hsk). lia. }
  assert (Hocc : (0 < count_occ string_dec reqs "")%nat) by (apply count_occ_In; exact Hin).
  assert (H3 : (0 < req_score sk reqs)%Q).
  { unfold req_score.
    assert (Hm : (0 < inject_Z (count_matching sk reqs))%Q) by (rewrite <- (Zlt_Qlt 0); lia).
    assert (Hn : (0 < inject_Z (Z.of_nat (length reqs)))%Q).
    { rewrite <- (Zlt_Qlt 0). destruct reqs; [congruence|simpl; lia]. }
    apply Qmult_lt_0_compat; [|reflexivity].
    apply Qlt_shift_div_l; [exact Hn|]. rewrite Qmult_0_l. exact Hm. }
  repeat split; try assumption.
  rewrite score_unfold_some by exact Hne. cbv zeta. cbn [score]. fold sk. lra.
Qed.

Lemma empty_requirement_always_matches_witness :
  requirement_matched "" (default [] (skills one_skill_record)) = true /\
  Z.of_nat (count_occ string_dec ["Rust"; ""] "")
  <= count_matching (default [] (skills one_skill_record)) ["Rust"; ""] /\
  (0 < req_score (default [] (skills one_skill_record)) ["Rust"; ""])%Q /\
  (inject_Z (base_score one_skill_record)
   < score (calculate_resume_score one_skill_record (Some ["Rust"; ""])))%Q.
Proof.
  apply (empty_requirement_always_matches one_skill_record ["Rust"; ""]).
  - simpl. discriminate.
  - simpl. right. left. reflexivity.
Defined.

End GradeTheorems.

(** ** Similarity *)

Module SimilarityFacts.
Import Analyzer Notions.

Lemma py_div_ok (a b : Z) : b <> 0 -> py_div a b = Ok (inject_Z a / inject_Z b)%Q.
Proof. intros Hb. unfold py_div. destruct (Z.eqb_spec b 0); [contradiction|reflexivity]. Qed.

Lemma union_size_pos (a b : gset string) : a ∪ b <> ∅ -> 0 < Z.of_nat (size (a ∪ b)).
Proof.
  intros H. assert (size (a ∪ b) <> 0%nat); [|lia].
  intros E. apply size_empty_iff in E. apply H. apply leibniz_equiv. exact E.
Qed.

Lemma similarity_score_jaccard (a b : gset string) :
  a ∪ b <> ∅ -> similarity_score a b = Ok (jaccard a b).
Proof.
  intros H. unfold similarity_score, jaccard. apply py_div_ok.
  pose proof (union_size_pos a b H). lia.
Qed.

Lemma jaccard_comm (a b : gset string) : jaccard a b = jaccard b a.
Proof.
  unfold jaccard. rewrite (comm_L (∩) a b), (comm_L (∪) a b). reflexivity.
Qed.

Lemma jaccard_range (a b : gset string) :
  a ∪ b <> ∅ -> (0 <= jaccard a b /\ jaccard a b <= 1)%Q.
Proof.
  intros H. pose proof (union_size_pos a b H) as Hpos.
  assert (Hle : (size (a ∩ b) <= size (a ∪ b))%nat).
  { apply subseteq_size. etrans; [apply intersection_subseteq_l|apply union_subseteq_l]. }
  unfold jaccard.
  set (n := Z.of_nat (size (a ∩ b))) in *. set (d := Z.of_nat (size (a ∪ b))) in *.
  assert (Hd : (0 < inject_Z d)%Q) by (rewrite <- (Zlt_Qlt 0); exact Hpos).
  split.
  - apply Qle_shift_div_l; [exact Hd|]. rewrite Qmult_0_l, <- (Zle_Qle 0). lia.
  - apply Qle_shift_div_r; [exact Hd|]. rewrite Qmult_1_l, <- Zle_Qle. lia.
Qed.

Lemma jaccard_self (a : gset string) : a <> ∅ -> (jaccard a a == 1)%Q.
Proof.
  intros H. unfold jaccard.
  assert (E1 : a ∩ a = a) by apply (idemp_L (∩)).
  assert (E2 : a ∪ a = a) by apply (idemp_L (∪)).
  rewrite E1, E2.
  assert (Hpos : 0 < Z.of_nat (size a)).
  { rewrite <- E2 at 1. apply union_size_pos. rewrite E2. exact H. }
  apply Qmult_inv_r. intros E.
  assert (Hd : (0 < inject_Z (Z.of_nat (size a)))%Q) by (rewrite <- (Zlt_Qlt 0); exact Hpos).
  lra.
Qed.

Lemma jaccard_empty_r (a : gset string) : Qlt_bool 0 (jaccard a ∅) = false.
Proof.
  unfold jaccard. rewrite (right_absorb_L ∅ (∩) a), size_empty.
  unfold Qlt_bool. apply negb_false_iff, Qle_bool_iff.
  unfold Qdiv. rewrite Qmult_0_l. apply Qle_refl.
Qed.

Lemma similar_step_ok (reference_skills : gset string) (sims : list similarity) (r : resume) :
  reference_skills <> ∅ ->
  similar_step reference_skills sims r
  = Ok (if Qlt_bool 0 (jaccard reference_skills (skill_set r))
        then sims ++ [entry_for reference_skills r] else sims).
Proof.
  intros Href. unfold similar_step. destruct (decide (skill_set r = ∅)) as [E|Hne].
  - rewrite E, jaccard_empty_r. reflexivity.
  - rewrite similarity_score_jaccard.
    + simpl. destruct (Qlt_bool 0 (jaccard reference_skills (skill_set r))); reflexivity.
    + intros E. apply empty_union_L in E as [E _]. contradiction.
Qed.

(** The loop over [all_resumes] never raises and appends, in order, the
    entries of the resumes with a positive index. *)
Lemma for_each_similar_step (reference_skills : gset string) (l : list resume)
    (acc : list similarity) :
  reference_skills <> ∅ ->
  for_each (similar_step reference_skills) acc l
  = Ok (acc ++ List.map (entry_for reference_skills)
                 (List.filter (fun r => Qlt_bool 0 (jaccard reference_skills (skill_set r))) l)).
Proof.
  intros Href. revert acc. induction l as [|r l IH]; intros acc; simpl.
  - rewrite app_nil_r. reflexivity.
  - rewrite similar_step_ok by exact Href. simpl. rewrite IH.
    destruct (Qlt_bool 0 (jaccard reference_skills (skill_set r))); simpl;
      [rewrite <- app_assoc|]; reflexivity.
Qed.

Lemma filter_filter_andb {T : Type} (f g : T -> bool) (l : list T) :
  List.filter f (List.filter g l) = List.filter (fun x => g x && f x) l.
Proof.
  induction l as [|x l IH]; simpl; [reflexivity|].
  destruct (g x); simpl; [destruct (f x)|]; rewrite IH; reflexivity.
Qed.

(** *** The stable sort *)

Lemma Qlt_bool_true (a b : Q) : Qlt_bool a b = true <-> (a < b)%Q.
Proof.
  unfold Qlt_bool. rewrite negb_true_iff.
  pose proof (Qle_bool_iff b a) as H. destruct (Qle_bool b a).
  - split; [discriminate|]. intros Hlt. assert (b <= a)%Q by (apply H; reflexivity). lra.
  - split; [|reflexivity]. intros _. destruct (Qlt_le_dec a b) as [Hlt|Hle]; [exact Hlt|].
    apply H in Hle. discriminate.
Qed.

Lemma Qlt_bool_false (a b : Q) : Qlt_bool a b = false <-> (b <= a)%Q.
Proof. unfold Qlt_bool. rewrite negb_false_iff. apply Qle_bool_iff. Qed.

Lemma insert_desc_perm (x : similarity) (l : list similarity) :
  Permutation (insert_desc x l) (x :: l).
Proof.
  induction l as [|y l IH]; simpl; [reflexivity|].
  destruct (Qlt_bool (sim_score x) (sim_score y)); [|reflexivity].
  rewrite IH. apply perm_swap.
Qed.

Lemma sort_desc_perm (l : list similarity) : Permutation (sort_desc l) l.
Proof.
  induction l as [|x l IH]; simpl; [reflexivity|].
  rewrite insert_desc_perm. apply perm_skip. exact IH.
Qed.

Lemma insert_desc_sorted (x : similarity) (l : list similarity) :
  StronglySorted score_ge l -> StronglySorted score_ge (insert_desc x l).
Proof.
  induction 1 as [|y l Hl IH Hy]; simpl.
  - constructor; constructor.
  - destruct (Qlt_bool (sim_score x) (sim_score y)) eqn:E.
    + apply Qlt_bool_true in E. constructor; [exact IH|].
      apply Forall_forall. intros z Hz.
      rewrite insert_desc_perm in Hz. apply elem_of_cons in Hz as [->|Hz].
      * unfold score_ge. lra.
      * rewrite Forall_forall in Hy. apply Hy. exact Hz.
    + apply Qlt_bool_false in E. constructor; [constructor; assumption|].
      constructor; [exact E|].
      apply Forall_forall. intros z Hz. rewrite Forall_forall in Hy.
      specialize (Hy z Hz). unfold score_ge in *. lra.
Qed.

Lemma sort_desc_sorted (l : list similarity) : StronglySorted score_ge (sort_desc l).
Proof.
  induction l as [|x l IH]; simpl; [constructor|]. apply insert_desc_sorted. exact IH.
Qed.

(** Insertion keeps, for every score, the entries of that score in order:
    the new entry only passes entries of a greater score. *)
Lemma insert_desc_same_score (q : Q) (x : similarity) (l : list similarity) :
  List.filter (same_score q) (insert_desc x l) = List.filter (same_score q) (x :: l).
Proof.
  induction l as [|y l IH]; [reflexivity|]. simpl insert_desc.
  destruct (Qlt_bool (sim_score x) (sim_score y)) eqn:E; [|reflexivity].
  apply Qlt_bool_true in E. simpl. rewrite IH. simpl.
  destruct (same_score q x) eqn:Ex; [|reflexivity].
  destruct (same_score q y) eqn:Ey; [|reflexivity].
  unfold same_score in Ex, Ey. apply Qeq_bool_iff in Ex, Ey. lra.
Qed.

Lemma sort_desc_stable (q : Q) (l : list similarity) :
  List.filter (same_score q) (sort_desc l) = List.filter (same_score q) l.
Proof.
  induction l as [|x l IH]; [reflexivity|]. simpl sort_desc.
  rewrite insert_desc_same_score. simpl. rewrite IH. reflexivity.
Qed.

Lemma slice_to_nonneg {T : Type} (limit : Z) (l : list T) :
  0 <= limit -> slice_to limit l = take (Z.to_nat limit) l.
Proof. intros H. unfold slice_to. destruct (Z.leb_spec 0 limit); [reflexivity|lia]. Qed.

End SimilarityFacts.

Module SimilarityTheorems.
Import Analyzer Notions SimilarityFacts.

(** C4. For two records whose skill sets are not both empty the code's
    similarity is the Jaccard index [|a ∩ b| / |a ∪ b|], it is the same in
    both directions and lies between 0 and 1. For a record with skills the
    similarity to itself is 1. A record without skills is left out of the
    comparison without any error: as a candidate the loop skips it, and as
    the reference the operation answers that it has no skills. *)
Theorem jaccard_similarity (a b : resume) :
  (skill_set a ∪ skill_set b <> ∅ ->
     similarity_score (skill_set a) (skill_set b) = Ok (jaccard (skill_set a) (skill_set b)) /\
     similarity_score (skill_set b) (skill_set a) = similarity_score (skill_set a) (skill_set b) /\
     (0 <= jaccard (skill_set a) (skill_set b))%Q /\
     (jaccard (skill_set a) (skill_set b) <= 1)%Q) /\
  (skill_set a <> ∅ ->
     similarity_score (skill_set a) (skill_set a) = Ok (jaccard (skill_set a) (skill_set a)) /\
     (jaccard (skill_set a) (skill_set a) == 1)%Q) /\
  (skill_set a = ∅ ->
     (forall reference_skills sims, similar_step reference_skills sims a = Ok sims) /\
     (forall collection limit, find_one collection (_id a) = Some a ->
        find_similar_resumes collection (_id a) limit = Reference_has_no_skills)).
Proof.
  split; [|split].
  - intros H. pose proof (jaccard_range _ _ H) as [H0 H1].
    assert (H' : skill_set b ∪ skill_set a <> ∅) by (rewrite (comm_L (∪)); exact H).
    repeat split; try assumption.
    + apply similarity_score_jaccard; exact H.
    + rewrite !similarity_score_jaccard by assumption. rewrite jaccard_comm. reflexivity.
  - intros H. split.
    + apply similarity_score_jaccard. rewrite (idemp_L (∪)). exact H.
    + apply jaccard_self; exact H.
  - intros H. split.
    + intros ref sims. unfold similar_step.
      destruct (decide (skill_set a = ∅)); [reflexivity|contradiction].
    + intros collection limit Hfind. unfold find_similar_resumes. rewrite Hfind.
      destruct (decide (skill_set a = ∅)); [reflexivity|contradiction].
Qed.

Lemma skill_set_nonempty (r : resume) (s : string) :
  In s (default [] (skills r)) -> skill_set r <> ∅.
Proof.
  intros Hin E. assert (Hs : s ∈ skill_set r).
  { unfold skill_set. apply elem_of_list_to_set, list_elem_of_In. exact Hin. }
  rewrite E in Hs. apply elem_of_empty in Hs. exact Hs.
Qed.

Lemma jaccard_similarity_witness :
  let a := with_skills 1 ["Python"; "Java"] in
  let b := with_skills 2 ["Java"] in
  let c := with_skills 3 [] in
  (similarity_score (skill_set a) (skill_set b) = Ok (jaccard (skill_set a) (skill_set b)) /\
   similarity_score (skill_set b) (skill_set a) = similarity_score (skill_set a) (skill_set b) /\
   (0 <= jaccard (skill_set a) (skill_set b))%Q /\
   (jaccard (skill_set a) (skill_set b) <= 1)%Q) /\
  (similarity_score (skill_set a) (skill_set a) = Ok (jaccard (skill_set a) (skill_set a)) /\
   (jaccard (skill_set a) (skill_set a) == 1)%Q) /\
  ((forall reference_skills sims, similar_step reference_skills sims c = Ok sims) /\
   (forall collection limit, find_one collection (_id c) = Some c ->
      find_similar_resumes collection (_id c) limit = Reference_has_no_skills)).
Proof.
  intros a b c.
  assert (Ha : skill_set a <> ∅) by (apply (skill_set_nonempty a "Python"); simpl; auto).
  split; [|split].
  - apply (jaccard_similarity a b). intros E. apply empty_union_L in E as [E _]. contradiction.
  - apply (jaccard_similarity a a). exact Ha.
  - apply (jaccard_similarity c c). reflexivity.
Defined.

(** C5. For a reference with skills and a requested count [limit >= 0], the
    ranking is the first [limit] entries of a list [ranked] that holds
    exactly the entries of the other resumes of the collection whose Jaccard
    index with the reference is positive, in descending order of the index,
    entries of equal index staying in the order of the collection. *)
Theorem similar_resumes_ranking (collection : list resume) (object_id : ObjectId)
    (limit : Z) (reference : resume) :
  find_one collection object_id = Some reference ->
  skill_set reference <> ∅ ->
  0 <= limit ->
  let candidates :=
    List.map (entry_for (skill_set reference))
      (List.filter (is_candidate object_id (skill_set reference)) collection) in
  exists ranked : list similarity,
    ranking_of (find_similar_resumes collection object_id limit)
    = Some (take (Z.to_nat limit) ranked) /\
    Permutation ranked candidates /\
    StronglySorted score_ge ranked /\
    (forall q : Q, List.filter (same_score q) ranked = List.filter (same_score q) candidates).
Proof.
  intros Hfind Href Hlimit candidates.
  exists (sort_desc candidates).
  split; [|split; [apply sort_desc_perm|split; [apply sort_desc_sorted|]]].
  - unfold find_similar_resumes. rewrite Hfind.
    destruct (decide (skill_set reference = ∅)); [contradiction|].
    rewrite for_each_similar_step by exact Href. cbv zeta.
    unfold find_others. rewrite filter_filter_andb. simpl app.
    fold (is_candidate object_id (skill_set reference)).
    change (List.map _ (List.filter _ collection)) with candidates.
    rewrite slice_to_nonneg by exact Hlimit.
    destruct (take (Z.to_nat limit) (sort_desc candidates)); reflexivity.
  - intros q. apply sort_desc_stable.
Qed.

Lemma similar_resumes_ranking_witness :
  let reference := with_skills 1 ["Python"; "Java"] in
  let candidates :=
    List.map (entry_for (skill_set reference))
      (List.filter (is_candidate 1%N (skill_set reference)) sample_collection) in
  exists ranked : list similarity,
    ranking_of (find_similar_resumes sample_collection 1%N 2)
    = Some (take (Z.to_nat 2) ranked) /\
    Permutation ranked candidates /\
    StronglySorted score_ge ranked /\
    (forall q : Q, List.filter (same_score q) ranked = List.filter (same_score q) candidates).
Proof.
  apply (similar_resumes_ranking sample_collection 1%N 2 (with_skills 1 ["Python"; "Java"])).
  - reflexivity.
  - apply (skill_set_nonempty _ "Python"). simpl. auto.
  - lia.
Defined.

End SimilarityTheorems.

(** ** Corpus statistics *)

Module StatsTheorems.
Import Analyzer Notions SimilarityFacts.

Lemma percent_ok (count total : Z) :
  total <> 0 -> percent count total = Ok (inject_Z count / inject_Z total * 100)%Q.
Proof. intros H. unfold percent. rewrite py_div_ok by exact H. reflexivity. Qed.

Lemma stats_body_ok (collection : list resume) (total : Z) :
  total <> 0 -> exists s, stats_body collection total = Ok s.
Proof.
  intros H. unfold stats_body. cbv zeta. rewrite !percent_ok by exact H.
  simpl. eexists. reflexivity.
Qed.

(** C7, as the code has it. On an empty collection the statistics branch
    answers that the database is empty, before any count is divided; it
    reports no count and no average. On no collection does the branch end in
    an error: the only divisor is the number of documents, and the test
    [total_resumes == 0] has ruled zero out. *)
Theorem empty_database_stats :
  get_database_stats [] = Database_is_empty /\
  (forall (collection : list resume) (e : py_error),
     get_database_stats collection <> Error_reply e) /\
  (forall collection : list resume,
     collection <> [] -> exists s, get_database_stats collection = Statistics s).
Proof.
  split; [reflexivity|]. split.
  - intros collection e. unfold get_database_stats. cbv zeta.
    destruct (Z.eqb_spec (count_documents (fun _ => true) collection) 0) as [E|Hne];
      [discriminate|].
    destruct (stats_body_ok collection _ Hne) as [s Hs]. rewrite Hs. discriminate.
  - intros collection Hne. unfold get_database_stats. cbv zeta.
    destruct (Z.eqb_spec (count_documents (fun _ => true) collection) 0) as [E|Hne'].
    + destruct collection; [congruence|]. unfold count_documents in E. simpl in E. lia.
    + destruct (stats_body_ok collection _ Hne') as [s Hs]. rewrite Hs. eauto.
Qed.

(** C7, as stated, fails: on the empty collection the answer carries no
    statistics at all, so no counts equal to 0 and no averages equal to 0.0. *)
Lemma empty_database_reports_no_numbers :
  ~ (exists s : statistics, get_database_stats [] = Statistics s).
Proof. intros [s H]. discriminate H. Qed.

End StatsTheorems.

(** ** Extraction: skills and experience *)

Module ExtractionTheorems.
Import App Notions.

Lemma lower_experience_keywords :
  Forall (fun word => Str.lower word = word) experience_keywords.
Proof. repeat constructor. Qed.

Lemma experience_test (line : string) :
  existsb (fun word => Str.contains word (Str.lower line)) experience_keywords
  = experience_line line.
Proof.
  unfold experience_line. pose proof lower_experience_keywords as H.
  induction H as [|word l Hw Hl IH]; [reflexivity|]. simpl. rewrite Hw, IH. reflexivity.
Qed.

Lemma experience_loop (lines acc : list string) :
  foldl experience_step acc lines
  = acc ++ List.map Str.strip (List.filter experience_line lines).
Proof.
  revert acc. induction lines as [|line lines IH]; intros acc; simpl.
  - rewrite app_nil_r. reflexivity.
  - rewrite IH. unfold experience_step. rewrite experience_test.
    destruct (experience_line line); simpl; [rewrite <- app_assoc|]; reflexivity.
Qed.

(** C6. Whatever the text and the entities, the experience field has at most
    5 elements: the first 5, in the order of the lines, of the trimmed lines
    of the text that contain an experience keyword, whatever the case. *)
Theorem experience_first_five (txt : string) (ents : list entity) :
  experience (extract_info txt ents)
  = take 5 (List.map Str.strip (List.filter experience_line (Str.splitlines txt))) /\
  (length (experience (extract_info txt ents)) <= 5)%nat.
Proof.
  assert (E : experience (extract_info txt ents)
              = take 5 (List.map Str.strip
                          (List.filter experience_line (Str.splitlines txt)))).
  { unfold extract_info. cbn [experience]. rewrite experience_loop. reflexivity. }
  split; [exact E|]. rewrite E, length_take. lia.
Qed.

Lemma skills_loop (txt : string) (vocabulary acc : list string) :
  foldl (skill_step txt) acc vocabulary
  = acc ++ List.filter (fun skill => Str.contains (Str.lower skill) (Str.lower txt))
             vocabulary.
Proof.
  revert acc. induction vocabulary as [|skill vocabulary IH]; intros acc; simpl.
  - rewrite app_nil_r. reflexivity.
  - rewrite IH. unfold skill_step.
    destruct (Str.contains (Str.lower skill) (Str.lower txt)); simpl;
      [rewrite <- app_assoc|]; reflexivity.
Qed.

(** C10. Whatever the text, the skills of the extracted record have no
    duplicates and belong to the vocabulary of 23 tokens; a token of the
    vocabulary is among them exactly when its lowercase form occurs in the
    lowercased text. *)
Theorem skills_from_vocabulary (txt : string) (ents : list entity) :
  NoDup (skills (extract_info txt ents)) /\
  length sample_skills = 23%nat /\
  (forall tok : string,
     In tok (skills (extract_info txt ents))
     <-> In tok sample_skills /\ substring_of (Str.lower tok) (Str.lower txt)).
Proof.
  split; [|split; [reflexivity|]].
  - unfold extract_info. cbn [skills]. apply NoDup_elements.
  - intros tok. unfold extract_info. cbn [skills]. rewrite skills_loop, app_nil_l.
    rewrite <- list_elem_of_In, elem_of_elements, elem_of_list_to_set, list_elem_of_In.
    rewrite filter_In. unfold substring_of. rewrite contains_spec. reflexivity.
Qed.

End ExtractionTheorems.

(** ** Regular expressions *)

Module ReFacts.
Import Re Notions.

Lemma append_cons (x : ascii) (a b : string) : String x a +:+ b = String x (a +:+ b).
Proof. reflexivity. Qed.

Lemma append_assoc (a b c : string) : (a +:+ b) +:+ c = a +:+ b +:+ c.
Proof.
  induction a as [|x a IH]; [reflexivity|]. rewrite !append_cons, IH. reflexivity.
Qed.

Lemma append_nil_r (a : string) : a +:+ "" = a.
Proof.
  induction a as [|x a IH]; [reflexivity|]. rewrite append_cons, IH. reflexivity.
Qed.

Lemma length_append (a b : string) :
  String.length (a +:+ b) = (String.length a + String.length b)%nat.
Proof.
  induction a as [|x a IH]; [reflexivity|]. rewrite append_cons. simpl.
  rewrite IH. reflexivity.
Qed.

Lemma last_char_append (prev : option ascii) (a b : string) :
  last_char prev (a +:+ b) = last_char (last_char prev a) b.
Proof.
  revert prev. induction a as [|x a IH]; intros prev; [reflexivity|].
  rewrite append_cons. simpl. apply IH.
Qed.

Lemma all_chars_append (cls : ascii -> bool) (a b : string) :
  all_chars cls (a +:+ b) = all_chars cls a && all_chars cls b.
Proof.
  induction a as [|x a IH]; [reflexivity|]. rewrite append_cons. simpl.
  rewrite IH, andb_assoc. reflexivity.
Qed.

Lemma within_zero (hi : option nat) : within 0 hi 0.
Proof. split; [lia|]. destruct hi; [lia|exact I]. Qed.

Lemma within_succ (lo : nat) (hi : option nat) (n : nat) :
  within (Nat.pred lo) (option_map Nat.pred hi) n -> exhausted hi = false ->
  within lo hi (S n).
Proof.
  intros [Hlo Hhi] Hex. split; [lia|].
  destruct hi as [[|h]|]; simpl in *; [discriminate|lia|exact I].
Qed.

Lemma within_pred (lo : nat) (hi : option nat) (n : nat) :
  within lo hi (S n) ->
  within (Nat.pred lo) (option_map Nat.pred hi) n /\ exhausted hi = false.
Proof.
  intros [Hlo Hhi]. split; [split; [lia|]|].
  - destruct hi as [h|]; simpl; [lia|exact I].
  - destruct hi as [[|h]|]; simpl; [lia|reflexivity|reflexivity].
Qed.

(** *** The greedy repetition *)

Lemma rep_result_stop (cls : ascii -> bool) (k : option ascii -> string -> option string)
    (lo : nat) (hi : option nat) (prev : option ascii) (s m : string) :
  match lo with O => k prev s | S _ => None end = Some m ->
  rep_result cls k lo hi prev s m.
Proof.
  intros H. destruct lo; [|discriminate].
  exists "", m, s. split; [reflexivity|]. split; [reflexivity|].
  split; [reflexivity|]. split; [apply within_zero|exact H].
Qed.

Lemma rep_greedy_sound (cls : ascii -> bool) (k : option ascii -> string -> option string)
    (s : string) :
  forall (lo : nat) (hi : option nat) (prev : option ascii) (m : string),
    rep_greedy cls k lo hi prev s = Some m -> rep_result cls k lo hi prev s m.
Proof.
  induction s as [|c s IH]; intros lo hi prev m H.
  - apply rep_result_stop. exact H.
  - simpl in H.
    destruct (cls c && negb (exhausted hi)) eqn:E; [|apply rep_result_stop; exact H].
    destruct (rep_greedy cls k (Nat.pred lo) (option_map Nat.pred hi) (Some c) s)
      as [m1|] eqn:R; [|apply rep_result_stop; exact H].
    injection H as <-. apply andb_true_iff in E as [Ec Eh]. apply negb_true_iff in Eh.
    destruct (IH _ _ _ _ R) as (run & m' & s' & -> & -> & Hall & Hw & Hk).
    exists (String c run), m', s'.
    split; [reflexivity|]. split; [reflexivity|].
    split; [simpl; rewrite Ec, Hall; reflexivity|].
    split; [apply within_succ; assumption|exact Hk].
Qed.

Lemma rep_greedy_complete (cls : ascii -> bool) (k : option ascii -> string -> option string)
    (run : string) :
  forall (lo : nat) (hi : option nat) (prev : option ascii) (s' m' : string),
    all_chars cls run = true -> within lo hi (String.length run) ->
    k (last_char prev run) s' = Some m' ->
    exists m : string, rep_greedy cls k lo hi prev (run +:+ s') = Some m.
Proof.
  induction run as [|c run IH]; intros lo hi prev s' m' Hall Hw Hk.
  - destruct Hw as [Hlo _]. simpl in Hlo, Hk. assert (lo = 0%nat) by lia. subst lo.
    change ("" +:+ s') with s'.
    destruct s' as [|d s'']; simpl; [eauto|].
    destruct (cls d && negb (exhausted hi)); [|eauto].
    destruct (rep_greedy cls k 0 (option_map Nat.pred hi) (Some d) s''); eauto.
  - simpl in Hall. apply andb_true_iff in Hall as [Hc Hall].
    apply within_pred in Hw as [Hw Hex]. simpl in Hk.
    rewrite append_cons. simpl. rewrite Hc, Hex. simpl.
    destruct (IH _ _ _ _ _ Hall Hw Hk) as [m Hm]. rewrite Hm. eauto.
Qed.

(** *** The matcher against the declarative reading *)

Lemma match_here_sound (p : pattern) :
  forall (prev : option ascii) (s m : string),
    match_here p prev s = Some m ->
    exists rest : string, s = m +:+ rest /\ matches p prev m rest.
Proof.
  induction p as [|a p IH]; intros prev s m H.
  - simpl in H. injection H as <-. exists s. split; [reflexivity|constructor].
  - destruct a as [|c|cls lo hi]; simpl in H.
    + destruct (at_boundary prev s) eqn:B; [|discriminate].
      destruct (IH _ _ _ H) as (rest & -> & Hm).
      exists rest. split; [reflexivity|]. constructor; assumption.
    + destruct s as [|c' s']; [discriminate|].
      destruct (Ascii.eqb_spec c c') as [->|]; [|discriminate].
      destruct (match_here p (Some c') s') as [m1|] eqn:R; [|discriminate].
      simpl in H. injection H as <-.
      destruct (IH _ _ _ R) as (rest & -> & Hm).
      exists rest. split; [reflexivity|]. constructor. exact Hm.
    + destruct (rep_greedy_sound _ _ _ _ _ _ _ H)
        as (run & m' & s' & -> & -> & Hall & Hw & Hk).
      destruct (IH _ _ _ Hk) as (rest & -> & Hm).
      exists rest. split; [rewrite append_assoc; reflexivity|].
      constructor; assumption.
Qed.

Lemma match_here_complete (p : pattern) (prev : option ascii) (m rest : string) :
  matches p prev m rest -> exists m' : string, match_here p prev (m +:+ rest) = Some m'.
Proof.
  induction 1 as [prev rest|p prev m rest B _ IH|c p prev m rest _ IH
                 |cls lo hi p prev run m rest Hall Hw _ IH].
  - simpl. eauto.
  - simpl. rewrite B. exact IH.
  - simpl. rewrite Ascii.eqb_refl. destruct IH as [m' ->]. simpl. eauto.
  - destruct IH as [m' Hm']. simpl. rewrite append_assoc.
    apply (rep_greedy_complete cls (match_here p) run lo hi prev _ m' Hall Hw Hm').
Qed.

(** *** [re.search] *)

Lemma search_from_some (p : pattern) (s : string) :
  forall (prev : option ascii) (m : string),
    search_from p prev s = Some m ->
    exists skipped post : string,
      s = skipped +:+ m +:+ post /\
      matches p (last_char prev skipped) m post /\
      forall skipped' m' post' : string,
        s = skipped' +:+ m' +:+ post' ->
        matches p (last_char prev skipped') m' post' ->
        (String.length skipped <= String.length skipped')%nat.
Proof.
  induction s as [|c s IH]; intros prev m H; simpl in H.
  - destruct (match_here p prev "") as [m0|] eqn:E; [|discriminate].
    injection H as <-. destruct (match_here_sound _ _ _ _ E) as (rest & Hs & Hm).
    exists "", rest. split; [exact Hs|]. split; [exact Hm|]. intros; simpl; lia.
  - destruct (match_here p prev (String c s)) as [m0|] eqn:E.
    + injection H as <-. destruct (match_here_sound _ _ _ _ E) as (rest & Hs & Hm).
      exists "", rest. split; [exact Hs|]. split; [exact Hm|]. intros; simpl; lia.
    + destruct (IH _ _ H) as (skipped & post & -> & Hm & Hfirst).
      exists (String c skipped), post. split; [reflexivity|]. split; [exact Hm|].
      intros skipped' m' post' Hs' Hm'. destruct skipped' as [|c' skipped''].
      * change ("" +:+ m' +:+ post') with (m' +:+ post') in Hs'. simpl in Hm'.
        apply match_here_complete in Hm' as [m'' Hm'']. rewrite <- Hs' in Hm''. congruence.
      * change (String c (skipped +:+ m +:+ post)
                = String c' (skipped'' +:+ m' +:+ post')) in Hs'.
        injection Hs' as <- Hs'. simpl in Hm'. simpl.
        specialize (Hfirst _ _ _ Hs' Hm'). lia.
Qed.

Lemma search_from_none (p : pattern) (s : string) :
  forall prev : option ascii,
    search_from p prev s = None ->
    forall skipped m post : string,
      s = skipped +:+ m +:+ post -> ~ matches p (last_char prev skipped) m post.
Proof.
  induction s as [|c s IH]; intros prev H skipped m post Hs Hm; simpl in H.
  - destruct (match_here p prev "") as [m0|] eqn:E; [discriminate|].
    destruct skipped; [|discriminate].
    change ("" +:+ m +:+ post) with (m +:+ post) in Hs. simpl in Hm.
    apply match_here_complete in Hm as [m' Hm']. rewrite <- Hs in Hm'. congruence.
  - destruct (match_here p prev (String c s)) as [m0|] eqn:E; [discriminate|].
    destruct skipped as [|c' skipped'].
    + change ("" +:+ m +:+ post) with (m +:+ post) in Hs. simpl in Hm.
      apply match_here_complete in Hm as [m' Hm']. rewrite <- Hs in Hm'. congruence.
    + change (String c s = String c' (skipped' +:+ m +:+ post)) in Hs.
      injection Hs as <- Hs. simpl in Hm. exact (IH _ H _ _ _ Hs Hm).
Qed.

(** [re.search(p, txt)] is the match at the leftmost position that has one. *)
Lemma search_spec (p : pattern) (txt : string) :
  match search p txt with
  | Some m => first_occurrence (matches p) txt m
  | None => no_occurrence (matches p) txt
  end.
Proof.
  unfold search. destruct (search_from p None txt) as [m|] eqn:E.
  - apply search_from_some in E as (pre & post & Hs & Hm & Hfirst).
    exists pre, post. auto.
  - intros pre m post Hs. exact (search_from_none _ _ _ E _ _ _ Hs).
Qed.

End ReFacts.

(** ** The email and phone fields *)

Module ContactFacts.
Import Re App Notions ReFacts.

Lemma matches_nil_inv (prev : option ascii) (m rest : string) :
  matches [] prev m rest -> m = "".
Proof. inversion 1. reflexivity. Qed.

Lemma matches_boundary_inv (p : pattern) (prev : option ascii) (m rest : string) :
  matches (Boundary :: p) prev m rest ->
  at_boundary prev (m +:+ rest) = true /\ matches p prev m rest.
Proof. inversion 1; subst. split; assumption. Qed.

Lemma matches_lit_inv (c : ascii) (p : pattern) (prev : option ascii) (m rest : string) :
  matches (Lit c :: p) prev m rest ->
  exists m' : string, m = String c m' /\ matches p (Some c) m' rest.
Proof. inversion 1; subst. eauto. Qed.

Lemma matches_rep_inv (cls : ascii -> bool) (lo : nat) (hi : option nat) (p : pattern)
    (prev : option ascii) (m rest : string) :
  matches (Rep cls lo hi :: p) prev m rest ->
  exists run m' : string,
    m = run +:+ m' /\ all_chars cls run = true /\ within lo hi (String.length run) /\
    matches p (last_char prev run) m' rest.
Proof. inversion 1; subst. eauto 10. Qed.

(** The email pattern read as a shape. *)
Lemma email_pattern_shape (prev : option ascii) (e post : string) :
  matches email_pattern prev e post <-> email_shape prev e post.
Proof.
  unfold email_pattern, email_shape, email_shape_with. split.
  - intros H.
    apply matches_boundary_inv in H as [B1 H].
    apply matches_rep_inv in H as (loc & m1 & E1 & A1 & [W1 _] & H).
    apply matches_lit_inv in H as (m2 & E2 & H).
    apply matches_rep_inv in H as (dom & m3 & E3 & A2 & [W2 _] & H).
    apply matches_lit_inv in H as (m4 & E4 & H).
    apply matches_rep_inv in H as (top & m5 & E5 & A3 & [W3 W3'] & H).
    apply matches_boundary_inv in H as [B2 H].
    apply matches_nil_inv in H. subst m5 m4 m3 m2 m1.
    rewrite append_nil_r in E1. change ("" +:+ post) with post in B2.
    exists loc, dom, top. subst e.
    split; [reflexivity|]. repeat (split; [assumption|]).
    split; [split; assumption|]. split; [assumption|]. split; [assumption|].
    rewrite last_char_append. change (last_char ?a (String ?c ?s)) with (last_char (Some c) s).
    rewrite last_char_append. exact B2.
  - intros (loc & dom & top & -> & W1 & A1 & W2 & A2 & [W3 W3'] & A3 & B1 & B2).
    rewrite last_char_append in B2.
    change ("@" +:+ dom +:+ "." +:+ top) with (String "@" (dom +:+ "." +:+ top)) in *.
    change (last_char ?a (String "@" ?s)) with (last_char (Some "@"%char) s) in B2.
    rewrite last_char_append in B2.
    change ("." +:+ top) with (String "." top) in *.
    change (last_char ?a (String "." ?s)) with (last_char (Some "."%char) s) in B2.
    constructor; [exact B1|].
    constructor; [exact A1|split; [exact W1|exact I]|].
    constructor.
    constructor; [exact A2|split; [exact W2|exact I]|].
    constructor.
    rewrite <- (append_nil_r top) at 1.
    constructor; [exact A3|split; assumption|].
    constructor; [exact B2|]. constructor.
Qed.

(** The phone pattern read as a shape. *)
Lemma phone_pattern_shape (prev : option ascii) (ph post : string) :
  matches phone_pattern prev ph post <-> phone_shape prev ph post.
Proof.
  unfold phone_pattern, phone_shape. split.
  - intros H.
    apply matches_boundary_inv in H as [B1 H].
    apply matches_rep_inv in H as (run & m1 & E1 & A1 & [W1 W1'] & H).
    apply matches_boundary_inv in H as [B2 H].
    apply matches_nil_inv in H. subst m1. rewrite append_nil_r in E1. subst run.
    change ("" +:+ post) with post in B2.
    split; [lia|]. split; [exact A1|]. split; assumption.
  - intros (L & A1 & B1 & B2).
    constructor; [exact B1|].
    rewrite <- (append_nil_r ph).
    constructor; [exact A1|split; simpl; lia|].
    constructor; [exact B2|]. constructor.
Qed.

Lemma first_occurrence_ext (shape shape' : option ascii -> string -> string -> Prop)
    (txt m : string) :
  (forall prev m post, shape prev m post <-> shape' prev m post) ->
  first_occurrence shape txt m -> first_occurrence shape' txt m.
Proof.
  intros Hext (pre & post & Ht & Hs & Hfirst). exists pre, post.
  split; [exact Ht|]. split; [apply Hext; exact Hs|].
  intros pre' m' post' Ht' Hs'. apply (Hfirst pre' m' post' Ht'). apply Hext. exact Hs'.
Qed.

Lemma no_occurrence_ext (shape shape' : option ascii -> string -> string -> Prop)
    (txt : string) :
  (forall prev m post, shape prev m post <-> shape' prev m post) ->
  no_occurrence shape txt -> no_occurrence shape' txt.
Proof.
  intros Hext Hno pre m post Ht Hs. apply (Hno pre m post Ht). apply Hext. exact Hs.
Qed.

(** A match of either pattern is not empty. *)
Lemma email_shape_nonempty (tld : ascii -> bool) (prev : option ascii) (post : string) :
  ~ email_shape_with tld prev "" post.
Proof.
  intros (loc & dom & top & E & W1 & _). destruct loc; [simpl in W1; lia|discriminate E].
Qed.

Lemma phone_shape_nonempty (prev : option ascii) (post : string) :
  ~ phone_shape prev "" post.
Proof. intros (L & _). discriminate L. Qed.

Lemma all_chars_last (cls : ascii -> bool) (s : string) :
  forall (prev : option ascii) (c : ascii),
    all_chars cls s = true -> s <> "" -> last_char prev s = Some c -> cls c = true.
Proof.
  induction s as [|x s IH]; intros prev c Hall Hne Hlast; [congruence|].
  simpl in Hall, Hlast. apply andb_true_iff in Hall as [Hx Hall].
  destruct s as [|y s'].
  - simpl in Hlast. injection Hlast as <-. exact Hx.
  - apply (IH (Some x) c Hall); [discriminate|exact Hlast].
Qed.

End ContactFacts.

Module ContactTheorems.
Import Re App Notions ReFacts ContactFacts.

Lemma search_field (p : pattern) (shape : option ascii -> string -> string -> Prop)
    (txt : string) :
  (forall prev m post, matches p prev m post <-> shape prev m post) ->
  field_of shape txt (default "" (search p txt)).
Proof.
  intros Hext. pose proof (search_spec p txt) as H.
  destruct (search p txt) as [m|]; simpl.
  - right. exact (first_occurrence_ext _ _ _ _ Hext H).
  - left. split; [reflexivity|]. exact (no_occurrence_ext _ _ _ Hext H).
Qed.

(** C8, as the code has it. The email field is empty when the text has no
    substring of the form local-part [@] domain [.] top-level segment between
    two word boundaries, where the local part and the domain are one or more
    word characters, dots or hyphens and the top-level segment is 2 to 4 word
    characters (letters, digits or underscore); otherwise it is the first such
    substring. The phone field is empty when the text has no run of exactly 10
    digits between two word boundaries, and the first such run otherwise. *)
Theorem email_and_phone_fields (txt : string) (ents : list entity) :
  field_of email_shape txt (email (extract_info txt ents)) /\
  field_of phone_shape txt (phone (extract_info txt ents)).
Proof.
  unfold extract_info. cbn [email phone]. split.
  - apply search_field. apply email_pattern_shape.
  - apply search_field. apply phone_pattern_shape.
Qed.

(** C8, as stated, fails: in the text [x@y.12] the email field is [x@y.12],
    whose top-level segment [12] has no letter. *)
Lemma email_top_level_segment_of_digits :
  email (extract_info "x@y.12" []) = "x@y.12" /\
  ~ (email (extract_info "x@y.12" []) = ""
     \/ exists pre post : string,
          "x@y.12" = pre +:+ email (extract_info "x@y.12" []) +:+ post /\
          email_shape_with Char.is_alpha (last_char None pre)
            (email (extract_info "x@y.12" [])) post).
Proof.
  assert (E : email (extract_info "x@y.12" []) = "x@y.12") by reflexivity.
  split; [exact E|]. rewrite E.
  intros [H|(pre & post & _ & loc & dom & top & Ee & _ & _ & _ & _ & [W _] & A & _)];
    [discriminate H|].
  assert (L : last_char None "x@y.12" = last_char (Some "."%char) top).
  { rewrite Ee, last_char_append.
    change ("@" +:+ dom +:+ "." +:+ top) with (String "@" (dom +:+ String "." top)).
    simpl last_char. rewrite last_char_append. reflexivity. }
  assert (Hne : top <> "") by (destruct top; [simpl in W; lia|discriminate]).
  pose proof (all_chars_last Char.is_alpha top (Some "."%char) "2"%char A Hne) as H2.
  simpl in L. specialize (H2 (eq_sym L)). discriminate H2.
Qed.

End ContactTheorems.

(** ** The model at work *)

Module Examples.
Import Analyzer Notions.

Example splitlines_example :
  Str.splitlines "Worked at Acme
  Role: engineer

BSc Mathematics
" = ["Worked at Acme"; "  Role: engineer"; ""; "BSc Mathematics"].
Proof. reflexivity. Qed.

Example strip_example : Str.strip "  Role: engineer " = "Role: engineer".
Proof. reflexivity. Qed.

Example email_search_example :
  Re.search App.email_pattern "mail .a-@b.c.defgh.ij! " = Some "a-@b.c.defgh.ij".
Proof. reflexivity. Qed.

Example email_search_none : Re.search App.email_pattern "a@b.cdefg" = None.
Proof. reflexivity. Qed.

Example phone_search_example :
  Re.search App.phone_pattern "tel 12345678901 1234567890x 0123456789."
  = Some "0123456789".
Proof. reflexivity. Qed.

Example extraction_example :
  let r := App.extract_info "Jane Roe, jane.roe@example.org, 0123456789
Worked on PYTHON and java projects
BSc Mathematics" [ {| App.label_ := "ORG"; App.text := "Acme" |};
                   {| App.label_ := "PERSON"; App.text := "Jane Roe" |} ] in
  App.name r = "Jane Roe" /\ App.email r = "jane.roe@example.org" /\
  App.phone r = "0123456789" /\
  App.experience r = ["Worked on PYTHON and java projects"] /\
  App.education r = ["BSc Mathematics"].
Proof. vm_compute. repeat split. Qed.

Example score_example :
  let sd := calculate_resume_score one_skill_record (Some ["py"; ""; "rust"]) in
  base_score one_skill_record = 3 /\ (score sd == 3 + (2 # 3) * 20)%Q /\
  max_score sd = 120 /\ grade_of sd = D.
Proof. vm_compute. repeat split; congruence. Qed.

(** The resumes 2 and 4 both have the index 1/2 with the first resume; they
    stay in the order of the collection. *)
Example ranking_example :
  option_map (List.map (fun e => _id (sim_resume e)))
    (ranking_of (find_similar_resumes sample_collection 1%N 10))
  = Some [2%N; 4%N].
Proof. vm_compute. reflexivity. Qed.

Example negative_limit_example :
  option_map (List.map (fun e => _id (sim_resume e)))
    (ranking_of (find_similar_resumes sample_collection 1%N (-1)))
  = Some [2%N].
Proof. vm_compute. reflexivity. Qed.

Example statistics_example :
  match get_database_stats sample_collection with
  | Statistics s =>
      total_resumes s = 5 /\ resumes_with_skills s = 4 /\ (pct_skills s == 80)%Q /\
      resumes_with_email s = 0
  | _ => False
  end.
Proof. vm_compute. repeat split; congruence. Qed.

(** The products of the grade are exact in binary64 arithmetic. *)
#[warnings="-inexact-float"] Lemma thresholds_in_binary64 :
  (PrimFloat.eqb (100 * 0.8) 80 && PrimFloat.eqb (100 * 0.6) 60
   && PrimFloat.eqb (100 * 0.4) 40 && PrimFloat.eqb (120 * 0.8) 96
   && PrimFloat.eqb (120 * 0.6) 72 && PrimFloat.eqb (120 * 0.4) 48)%float%bool = true.
Proof. reflexivity. Qed.

End Examples.

(** ** Further properties of the score *)

Module ScoreMore.
Import Analyzer Notions MoreNotions ScoreFacts ScoreTheorems GradeTheorems.

Lemma score_data_cases (r : resume) (jr : option (list string)) :
  exists (s : Q) (m : Z),
    (m = 100 \/ m = 120) /\ (0 <= s)%Q /\ (s <= inject_Z m)%Q /\
    calculate_resume_score r jr
    = {| score := s; max_score := m;
         percentage := (s / inject_Z m * 100)%Q; grade_of := grade_for s m |}.
Proof.
  pose proof (base_score_range r) as [Hlo Hhi].
  assert (Hb0 : (0 <= inject_Z (base_score r))%Q) by (rewrite <- (Zle_Qle 0); exact Hlo).
  assert (Hb1 : (inject_Z (base_score r) <= 100)%Q)
    by (change 100%Q with (inject_Z 100); rewrite <- Zle_Qle; exact Hhi).
  destruct jr as [[|req reqs]|].
  - exists (inject_Z (base_score r)), 100. repeat split; auto.
  - destruct (req_score_range (default [] (skills r)) (req :: reqs)) as [Hr0 Hr1];
      [discriminate|].
    exists (inject_Z (base_score r) + req_score (default [] (skills r)) (req :: reqs))%Q, 120.
    split; [auto|]. split; [lra|]. split; [|reflexivity].
    change (inject_Z 120) with 120%Q. lra.
  - exists (inject_Z (base_score r)), 100. repeat split; auto.
Qed.

Lemma percentage_scale (s t : Q) (m : Z) :
  0 < m -> (t <= s / inject_Z m * 100 <-> t * inject_Z m <= s * 100)%Q.
Proof.
  intros Hm. assert (Hq : (0 < inject_Z m)%Q) by (rewrite <- (Zlt_Qlt 0); exact Hm).
  assert (Hne : ~ (inject_Z m == 0)%Q) by lra.
  assert (E : (s / inject_Z m * 100 * inject_Z m == s * 100)%Q) by (field; exact Hne).
  split; intros H.
  - rewrite <- E. apply Qmult_le_compat_r; [exact H|lra].
  - rewrite <- E in H. apply Qmult_le_r in H; [exact H|exact Hq].
Qed.

Lemma percentage_scale_le (s t : Q) (m : Z) :
  0 < m -> (s / inject_Z m * 100 <= t <-> s * 100 <= t * inject_Z m)%Q.
Proof.
  intros Hm. assert (Hq : (0 < inject_Z m)%Q) by (rewrite <- (Zlt_Qlt 0); exact Hm).
  assert (Hne : ~ (inject_Z m == 0)%Q) by lra.
  assert (E : (s / inject_Z m * 100 * inject_Z m == s * 100)%Q) by (field; exact Hne).
  split; intros H.
  - rewrite <- E. apply Qmult_le_compat_r; [exact H|lra].
  - rewrite <- E in H. apply Qmult_le_r in H; [exact H|exact Hq].
Qed.

(** The percentage lies between 0 and 100, whatever the record and the
    requirements, and the letter grade is the one of the percentage: A from
    80, B from 60, C from 40, D below. *)
Theorem grade_by_percentage (r : resume) (job_requirements : option (list string)) :
  let sd := calculate_resume_score r job_requirements in
  (0 <= percentage sd)%Q /\ (percentage sd <= 100)%Q /\
  (grade_of sd = A <-> (80 <= percentage sd)%Q) /\
  (grade_of sd = B <-> (60 <= percentage sd /\ percentage sd < 80)%Q) /\
  (grade_of sd = C <-> (40 <= percentage sd /\ percentage sd < 60)%Q) /\
  (grade_of sd = D <-> (percentage sd < 40)%Q).
Proof.
  cbv zeta. destruct (score_data_cases r job_requirements) as (s & m & Hm & Hs0 & Hs1 & ->).
  cbn [percentage grade_of].
  assert (Hpos : 0 < m) by (destruct Hm; subst; lia).
  assert (Hq : (0 < inject_Z m)%Q) by (rewrite <- (Zlt_Qlt 0); exact Hpos).
  destruct (grade_for_cases s m Hpos) as (HA & HB & HC & HD).
  pose proof (percentage_scale s) as P.
  assert (P' : forall t : Q, (s / inject_Z m * 100 < t <-> s * 100 < t * inject_Z m)%Q).
  { intros t. pose proof (P t m Hpos) as Ht. split; intros H.
    - apply Qnot_le_lt. intros H'. apply Ht in H'. lra.
    - apply Qnot_le_lt. intros H'. apply Ht in H'. lra. }
  split; [apply (P 0%Q m Hpos); lra|].
  split; [apply (percentage_scale_le s 100%Q m Hpos); lra|].
  split; [rewrite HA, (P 80%Q m Hpos); split; intros H; lra|].
  split; [rewrite HB, (P 60%Q m Hpos), (P' 80%Q); split; intros H; lra|].
  split; [rewrite HC, (P 40%Q m Hpos), (P' 60%Q); split; intros H; lra|].
  rewrite HD, (P' 40%Q); split; intros H; lra.
Qed.

Lemma filter_satisfied_lower (skills reqs : list string) :
  length (List.filter (satisfied skills) reqs)
  = length (List.filter (satisfied_lower skills) (List.map Str.lower reqs)).
Proof.
  induction reqs as [|req reqs IH]; [reflexivity|]. simpl.
  change (satisfied_lower skills (Str.lower req)) with (satisfied skills req).
  destruct (satisfied skills req); simpl; rewrite IH; reflexivity.
Qed.

Lemma filter_length_perm {T : Type} (f : T -> bool) (l l' : list T) :
  Permutation l l' -> length (List.filter f l) = length (List.filter f l').
Proof.
  induction 1 as [|x l l' _ IH|x y l|l l' l'' _ IH1 _ IH2]; simpl.
  - reflexivity.
  - destruct (f x); simpl; rewrite IH; reflexivity.
  - destruct (f x), (f y); reflexivity.
  - rewrite IH1. exact IH2.
Qed.

(** The result does not depend on the order of the job requirements nor on
    their letter case: two lists that are the same up to order once put in
    lowercase give the same score, maximum, percentage and grade. *)
Theorem requirements_order_and_case (r : resume) (reqs reqs' : list string) :
  Permutation (List.map Str.lower reqs) (List.map Str.lower reqs') ->
  calculate_resume_score r (Some reqs) = calculate_resume_score r (Some reqs').
Proof.
  intros Hperm.
  assert (Hlen : length reqs = length reqs').
  { apply Permutation_length in Hperm. rewrite !length_map in Hperm. exact Hperm. }
  assert (Hcount : count_matching (default [] (skills r)) reqs
                   = count_matching (default [] (skills r)) reqs').
  { rewrite !count_matching_filter, !filter_satisfied_lower.
    rewrite (filter_length_perm _ _ _ Hperm). reflexivity. }
  destruct reqs as [|q reqs]; destruct reqs' as [|q' reqs']; try discriminate Hlen.
  - reflexivity.
  - rewrite !score_unfold_some by discriminate. cbv zeta. unfold req_score.
    rewrite Hcount, Hlen. reflexivity.
Qed.

Lemma requirements_order_and_case_witness :
  calculate_resume_score full_record (Some ["SQL"; "python"])
  = calculate_resume_score full_record (Some ["PYTHON"; "sql"]).
Proof.
  apply (requirements_order_and_case full_record ["SQL"; "python"] ["PYTHON"; "sql"]).
  simpl. apply perm_swap.
Defined.

Lemma base_score_mono (r r' : resume) : at_least r r' -> base_score r <= base_score r'.
Proof.
  intros [_ Hs Hx He Hm Hp Hsum].
  unfold base_score, skills_score, exp_score, edu_score, contact_score.
  destruct (truthy (email r)) eqn:E1; [rewrite (Hm eq_refl)|];
    (destruct (truthy (phone r)) eqn:E2; [rewrite (Hp eq_refl)|]);
    destruct (truthy (email r')), (truthy (phone r')); lia.
Qed.

Lemma satisfied_mono (sk sk' : list string) (req : string) :
  (forall s, In s sk -> In s sk') -> satisfied sk req = true -> satisfied sk' req = true.
Proof.
  intros Hincl H. unfold satisfied in *. apply existsb_exists in H as (s & Hin & Hs).
  apply existsb_exists. exists s. split; [apply Hincl; exact Hin|exact Hs].
Qed.

Lemma filter_length_mono {T : Type} (f g : T -> bool) (l : list T) :
  (forall x, f x = true -> g x = true) ->
  (length (List.filter f l) <= length (List.filter g l))%nat.
Proof.
  intros H. induction l as [|x l IH]; simpl; [lia|].
  destruct (f x) eqn:E.
  - rewrite (H x E). simpl. lia.
  - destruct (g x); simpl; lia.
Qed.

Lemma req_score_mono (sk sk' reqs : list string) :
  reqs <> [] -> (forall s, In s sk -> In s sk') ->
  (req_score sk reqs <= req_score sk' reqs)%Q.
Proof.
  intros Hne Hincl. unfold req_score. rewrite !count_matching_filter.
  pose proof (filter_length_mono (satisfied sk) (satisfied sk') reqs
                (fun x => satisfied_mono sk sk' x Hincl)) as Hle.
  assert (Hn : (0 < inject_Z (Z.of_nat (length reqs)))%Q).
  { rewrite <- (Zlt_Qlt 0). destruct reqs; [congruence|simpl; lia]. }
  apply Qmult_le_compat_r; [|discriminate].
  apply Qmult_le_compat_r; [rewrite <- Zle_Qle; lia|].
  apply Qlt_le_weak, Qinv_lt_0_compat. exact Hn.
Qed.

Lemma grade_for_mono (s s' : Q) (m : Z) :
  0 < m -> (s <= s')%Q -> (grade_rank (grade_for s m) <= grade_rank (grade_for s' m))%nat.
Proof.
  intros Hm Hs.
  assert (Hq : (0 < inject_Z m)%Q) by (rewrite <- (Zlt_Qlt 0); exact Hm).
  destruct (grade_for_cases s m Hm) as (HA & HB & HC & HD).
  destruct (grade_for_cases s' m Hm) as (HA' & HB' & HC' & HD').
  destruct (grade_for s m) eqn:G; destruct (grade_for s' m) eqn:G';
    simpl; try lia; exfalso;
    repeat match goal with
           | H : _ <-> _ |- _ => first [ pose proof (proj1 H eq_refl); clear H | clear H ]
           end; lra.
Qed.

(** A record that has at least what another one has never gets a lower
    score, percentage or grade, with or without job requirements. *)
Theorem more_never_scores_lower (r r' : resume) (job_requirements : option (list string)) :
  at_least r r' ->
  let sd := calculate_resume_score r job_requirements in
  let sd' := calculate_resume_score r' job_requirements in
  (score sd <= score sd')%Q /\ max_score sd = max_score sd' /\
  (percentage sd <= percentage sd')%Q /\
  (grade_rank (grade_of sd) <= grade_rank (grade_of sd'))%nat.
Proof.
  intros H. pose proof (base_score_mono r r' H) as Hb.
  assert (Hq : (inject_Z (base_score r) <= inject_Z (base_score r'))%Q)
    by (rewrite <- Zle_Qle; exact Hb).
  assert (Hpct : forall (s s' : Q) (m : Z), 0 < m -> (s <= s')%Q ->
            (s / inject_Z m * 100 <= s' / inject_Z m * 100)%Q).
  { intros s s' m Hm Hs. apply Qmult_le_compat_r; [|discriminate].
    apply Qmult_le_compat_r; [exact Hs|].
    apply Qlt_le_weak, Qinv_lt_0_compat. rewrite <- (Zlt_Qlt 0). exact Hm. }
  cbv zeta. destruct job_requirements as [[|req reqs]|].
  - rewrite !(score_unfold_none _ (Some [])) by reflexivity. cbn [score max_score percentage grade_of].
    split; [exact Hq|]. split; [reflexivity|].
    split; [apply Hpct; [lia|exact Hq]|apply grade_for_mono; [lia|exact Hq]].
  - rewrite !score_unfold_some by discriminate. cbv zeta.
    cbn [score max_score percentage grade_of].
    pose proof (req_score_mono _ _ (req :: reqs) ltac:(discriminate) (more_skills r r' H)) as Hr.
    assert (Hs : (inject_Z (base_score r) + req_score (default [] (skills r)) (req :: reqs)
                  <= inject_Z (base_score r')
                     + req_score (default [] (skills r')) (req :: reqs))%Q) by lra.
    split; [exact Hs|]. split; [reflexivity|].
    split; [apply Hpct; [lia|exact Hs]|apply grade_for_mono; [lia|exact Hs]].
  - rewrite !(score_unfold_none _ None) by reflexivity. cbn [score max_score percentage grade_of].
    split; [exact Hq|]. split; [reflexivity|].
    split; [apply Hpct; [lia|exact Hq]|apply grade_for_mono; [lia|exact Hq]].
Qed.

Lemma one_skill_at_most_full : at_least one_skill_record full_record.
Proof.
  constructor; simpl; try lia; try discriminate.
  intros s [<-|[]]. left. reflexivity.
Qed.

Lemma more_never_scores_lower_witness :
  let sd := calculate_resume_score one_skill_record (Some ["python"; "go"]) in
  let sd' := calculate_resume_score full_record (Some ["python"; "go"]) in
  (score sd <= score sd')%Q /\ max_score sd = max_score sd' /\
  (percentage sd <= percentage sd')%Q /\
  (grade_rank (grade_of sd) <= grade_rank (grade_of sd'))%nat.
Proof.
  apply (more_never_scores_lower one_skill_record full_record (Some ["python"; "go"])).
  exact one_skill_at_most_full.
Defined.

End ScoreMore.

(** ** Experience levels and the comparison of two resumes *)

Module ToolsFacts.
Import Analyzer Notions MoreNotions Tools SimilarityFacts StatsTheorems.

Section StableSort.
Context {T : Type} (key : T -> Z).

Lemma insert_by_perm (x : T) (l : list T) : Permutation (insert_by key x l) (x :: l).
Proof.
  induction l as [|y l IH]; simpl; [reflexivity|].
  destruct (key x <? key y); [|reflexivity]. rewrite IH. apply perm_swap.
Qed.

Lemma sorted_desc_perm (l : list T) : Permutation (sorted_desc key l) l.
Proof.
  induction l as [|x l IH]; simpl; [reflexivity|].
  rewrite insert_by_perm. apply perm_skip. exact IH.
Qed.

Lemma insert_by_sorted (x : T) (l : list T) :
  StronglySorted (key_ge key) l -> StronglySorted (key_ge key) (insert_by key x l).
Proof.
  induction 1 as [|y l Hl IH Hy]; simpl.
  - constructor; constructor.
  - destruct (Z.ltb_spec (key x) (key y)) as [E|E].
    + constructor; [exact IH|]. apply Forall_forall. intros z Hz.
      rewrite insert_by_perm in Hz. apply elem_of_cons in Hz as [->|Hz].
      * unfold key_ge. lia.
      * rewrite Forall_forall in Hy. apply Hy. exact Hz.
    + constructor; [constructor; assumption|].
      constructor; [exact E|]. apply Forall_forall. intros z Hz.
      rewrite Forall_forall in Hy. specialize (Hy z Hz). unfold key_ge in *. lia.
Qed.

Lemma sorted_desc_sorted (l : list T) : StronglySorted (key_ge key) (sorted_desc key l).
Proof.
  induction l as [|x l IH]; simpl; [constructor|]. apply insert_by_sorted. exact IH.
Qed.

Lemma insert_by_same_key (k : Z) (x : T) (l : list T) :
  List.filter (same_key key k) (insert_by key x l) = List.filter (same_key key k) (x :: l).
Proof.
  induction l as [|y l IH]; [reflexivity|]. simpl insert_by.
  destruct (Z.ltb_spec (key x) (key y)) as [E|E]; [|reflexivity].
  simpl. rewrite IH. simpl. unfold same_key.
  destruct (Z.eqb_spec (key x) k); [|reflexivity].
  destruct (Z.eqb_spec (key y) k); [lia|reflexivity].
Qed.

Lemma sorted_desc_stable (k : Z) (l : list T) :
  List.filter (same_key key k) (sorted_desc key l) = List.filter (same_key key k) l.
Proof.
  induction l as [|x l IH]; [reflexivity|]. simpl sorted_desc.
  rewrite insert_by_same_key. simpl. rewrite IH. reflexivity.
Qed.

End StableSort.

(** The level grows with the number of entries: up to 2 entries give
    [entry], 3 to 5 give [mid], 6 and more give [senior]. *)
Theorem experience_level_thresholds (experience experience' : list string) :
  (analyze_experience_level experience = entry <-> (length experience <= 2)%nat) /\
  (analyze_experience_level experience = mid
   <-> (3 <= length experience /\ length experience <= 5)%nat) /\
  (analyze_experience_level experience = senior <-> (5 < length experience)%nat) /\
  ((length experience <= length experience')%nat ->
   (level_rank (analyze_experience_level experience)
    <= level_rank (analyze_experience_level experience'))%nat).
Proof.
  assert (H : forall l : list string,
    (analyze_experience_level l = entry /\ (length l <= 2)%nat) \/
    (analyze_experience_level l = mid /\ (3 <= length l <= 5)%nat) \/
    (analyze_experience_level l = senior /\ (5 < length l)%nat)).
  { intros l. unfold analyze_experience_level. destruct l as [|x l]; [left; simpl; auto with lia|].
    destruct (Nat.leb_spec (length (x :: l)) 2); [left; auto|].
    destruct (Nat.leb_spec (length (x :: l)) 5); [right; left; auto with lia|].
    right; right; auto. }
  destruct (H experience) as [[-> H1]|[[-> H1]|[-> H1]]];
    (split; [|split; [|split]]); try (split; intros; first [congruence | lia]);
    intros Hle; destruct (H experience') as [[-> H2]|[[-> H2]|[-> H2]]];
    simpl; lia.
Qed.

Lemma experience_level_thresholds_witness :
  (analyze_experience_level ["a"; "b"] = entry <-> (length ["a"; "b"] <= 2)%nat) /\
  (analyze_experience_level ["a"; "b"] = mid
   <-> (3 <= length ["a"; "b"] /\ length ["a"; "b"] <= 5)%nat) /\
  (analyze_experience_level ["a"; "b"] = senior <-> (5 < length ["a"; "b"])%nat) /\
  ((length ["a"; "b"] <= length ["a"; "b"; "c"])%nat ->
   (level_rank (analyze_experience_level ["a"; "b"])
    <= level_rank (analyze_experience_level ["a"; "b"; "c"]))%nat).
Proof. apply (experience_level_thresholds ["a"; "b"] ["a"; "b"; "c"]). Defined.

(** *** The loop of get_experience_analysis *)

Lemma bump_counts (l : level) (c : level_counts) :
  entry_count (bump l c) = entry_count c + (if Nat.eqb (level_rank l) 0 then 1 else 0) /\
  mid_count (bump l c) = mid_count c + (if Nat.eqb (level_rank l) 1 then 1 else 0) /\
  senior_count (bump l c) = senior_count c + (if Nat.eqb (level_rank l) 2 then 1 else 0).
Proof. destruct l; simpl; repeat split; lia. Qed.

Lemma analysis_loop (collection : list resume) (c : level_counts)
    (d : list experience_detail) :
  let out := foldl analysis_step (c, d) collection in
  entry_count (fst out) = entry_count c + count_level entry collection /\
  mid_count (fst out) = mid_count c + count_level mid collection /\
  senior_count (fst out) = senior_count c + count_level senior collection /\
  snd out = d ++ List.map detail_of collection.
Proof.
  revert c d. induction collection as [|r l IH]; intros c d; cbv zeta.
  - simpl. unfold count_level. simpl. rewrite app_nil_r.
    repeat split; first [lia | reflexivity].
  - simpl foldl. specialize (IH (bump (level_of r) c) (d ++ [detail_of r])).
    cbv zeta in IH. destruct IH as (H1 & H2 & H3 & H4).
    change (analysis_step (c, d) r) with (bump (level_of r) c, d ++ [detail_of r]).
    rewrite H1, H2, H3, H4.
    destruct (bump_counts (level_of r) c) as (B1 & B2 & B3). rewrite B1, B2, B3.
    unfold count_level, has_level. simpl.
    repeat split; try (destruct (level_of r); simpl; lia).
    rewrite <- app_assoc. reflexivity.
Qed.

Lemma count_level_total (collection : list resume) :
  count_level entry collection + count_level mid collection
  + count_level senior collection = Z.of_nat (length collection).
Proof.
  unfold count_level, has_level.
  induction collection as [|r l IH]; [simpl; lia|]. simpl in IH |- *.
  destruct (level_of r); simpl in IH |- *; lia.
Qed.

Lemma experience_body_ok (collection : list resume) :
  collection <> [] ->
  experience_body collection
  = let total := Z.of_nat (length collection) in
    let counts := {| entry_count := count_level entry collection;
                     mid_count := count_level mid collection;
                     senior_count := count_level senior collection |} in
    Ok {| report_total := total;
          levels := counts;
          pct_entry := (inject_Z (count_level entry collection) / inject_Z total * 100)%Q;
          pct_mid := (inject_Z (count_level mid collection) / inject_Z total * 100)%Q;
          pct_senior := (inject_Z (count_level senior collection) / inject_Z total * 100)%Q;
          breakdown := sorted_desc experience_count (List.map detail_of collection) |}.
Proof.
  intros Hne. unfold experience_body.
  pose proof (analysis_loop collection
                {| entry_count := 0; mid_count := 0; senior_count := 0 |} []) as H.
  cbv zeta in H.
  destruct (foldl analysis_step
              ({| entry_count := 0; mid_count := 0; senior_count := 0 |}, []) collection)
    as [[e m s] d].
  simpl in H. destruct H as (-> & -> & -> & ->).
  assert (Ht : Z.of_nat (length collection) <> 0) by (destruct collection; [congruence|simpl; lia]).
  cbv zeta. cbn [entry_count mid_count senior_count].
  rewrite !percent_ok by exact Ht. reflexivity.
Qed.

Lemma experience_analysis_nonempty (collection : list resume) :
  collection <> [] ->
  get_experience_analysis collection
  = match experience_body collection with
    | Ok r => Experience_analysis r
    | Raise e => Experience_error e
    end.
Proof. destruct collection; [congruence|reflexivity]. Qed.


(** The detailed breakdown lists every resume once, by decreasing number of
    experience entries; resumes with the same number of entries stay in the
    order of the collection. *)
Theorem experience_breakdown_order (collection : list resume) (rep : experience_report) :
  get_experience_analysis collection = Experience_analysis rep ->
  Permutation (breakdown rep) (List.map detail_of collection) /\
  StronglySorted (key_ge experience_count) (breakdown rep) /\
  (forall k : Z,
     List.filter (same_key experience_count k) (breakdown rep)
     = List.filter (same_key experience_count k) (List.map detail_of collection)).
Proof.
  intros H. destruct collection as [|r l]; [discriminate H|].
  unfold get_experience_analysis in H. rewrite experience_body_ok in H by discriminate.
  cbv zeta in H.
  assert (E : breakdown rep = sorted_desc experience_count (List.map detail_of (r :: l)))
    by (injection H as <-; reflexivity).
  rewrite E. split; [apply sorted_desc_perm|]. split; [apply sorted_desc_sorted|].
  intros k. apply sorted_desc_stable.
Qed.

Lemma experience_breakdown_order_witness :
  exists rep : experience_report,
    get_experience_analysis three_records = Experience_analysis rep /\
    Permutation (breakdown rep) (List.map detail_of three_records) /\
    StronglySorted (key_ge experience_count) (breakdown rep) /\
    (forall k : Z,
       List.filter (same_key experience_count k) (breakdown rep)
       = List.filter (same_key experience_count k) (List.map detail_of three_records)).
Proof.
  eexists. split; [reflexivity|].
  apply (experience_breakdown_order three_records). reflexivity.
Defined.

(** *** compare_resumes *)




End ToolsFacts.

(** ** The distribution of skills *)

Module DistributionFacts.
Import Analyzer Notions MoreNotions Tools SimilarityFacts StatsTheorems ToolsFacts.

Lemma line_step_ok (total : Z) (acc : list skill_line) (d : string * Z) :
  total <> 0 -> line_step total acc d = Ok (acc ++ [line_of total d]).
Proof. intros Ht. unfold line_step. rewrite percent_ok by exact Ht. reflexivity. Qed.

Lemma line_loop (total : Z) (data : list (string * Z)) (acc : list skill_line) :
  total <> 0 ->
  for_each (line_step total) acc data = Ok (acc ++ List.map (line_of total) data).
Proof.
  intros Ht. revert acc. induction data as [|d data IH]; intros acc.
  - simpl. rewrite app_nil_r. reflexivity.
  - change (for_each (line_step total) acc (d :: data))
      with (mbind (fun s' => for_each (line_step total) s' data) (line_step total acc d)).
    rewrite line_step_ok by exact Ht.
    change (for_each (line_step total) (acc ++ [line_of total d]) data
            = Ok (acc ++ List.map (line_of total) (d :: data))).
    rewrite IH. simpl List.map. rewrite <- app_assoc. reflexivity.
Qed.

Lemma group_count_fst (entries : list string) :
  List.map fst (group_count entries) = remove_dups entries.
Proof.
  unfold group_count. rewrite List.map_map. simpl. apply List.map_id.
Qed.

Lemma group_count_elem (entries : list string) (d : string * Z) :
  In d (group_count entries) ->
  In (fst d) entries /\ snd d = Z.of_nat (count_occ string_dec entries (fst d)).
Proof.
  unfold group_count. intros H. apply in_map_iff in H as (s & <- & Hs). simpl.
  split; [|reflexivity].
  apply list_elem_of_In, (proj1 (elem_of_remove_dups _ _)), list_elem_of_In. exact Hs.
Qed.

Lemma unwind_empty_collection (collection : list resume) :
  unwind_skills collection <> [] -> collection <> [].
Proof. intros H E. subst collection. apply H. reflexivity. Qed.

Lemma aggregate_elem (collection : list resume) (top_n : Z) (d : string * Z) :
  In d (aggregate_skills collection top_n) ->
  In d (group_count (unwind_skills collection)).
Proof.
  unfold aggregate_skills. intros H.
  apply list_elem_of_In in H. apply elem_of_take in H as (i & H & _).
  apply list_elem_of_lookup_2 in H. rewrite sorted_desc_perm in H.
  apply list_elem_of_In. exact H.
Qed.

Lemma StronglySorted_take {T : Type} (R : T -> T -> Prop) (l : list T) (n : nat) :
  StronglySorted R l -> StronglySorted R (take n l).
Proof.
  intros H. revert n. induction H as [|x l Hl IH Hx]; intros [|n]; simpl; try constructor.
  - apply IH.
  - apply Forall_take. exact Hx.
Qed.

Lemma StronglySorted_map {T U : Type} (f : T -> U) (R : T -> T -> Prop) (S : U -> U -> Prop)
    (l : list T) :
  (forall x y, R x y -> S (f x) (f y)) ->
  StronglySorted R l -> StronglySorted S (List.map f l).
Proof.
  intros HRS. induction 1 as [|x l Hl IH Hx]; simpl; constructor; [exact IH|].
  apply Forall_forall. intros y Hy. apply list_elem_of_In, in_map_iff in Hy as (z & <- & Hz).
  apply HRS. rewrite Forall_forall in Hx. apply Hx, list_elem_of_In. exact Hz.
Qed.

Lemma NoDup_take {T : Type} (l : list T) (n : nat) : NoDup l -> NoDup (take n l).
Proof. intros H. exact (sublist_NoDup _ _ H (sublist_take l n)). Qed.

Lemma count_occ_unwind (collection : list resume) (s : string) :
  Forall (fun r => NoDup (default [] (skills r))) collection ->
  (count_occ string_dec (unwind_skills collection) s <= length collection)%nat.
Proof.
  induction 1 as [|r l Hr _ IH]; [simpl; lia|].
  unfold unwind_skills in *. simpl. rewrite count_occ_app.
  apply NoDup_ListNoDup in Hr.
  pose proof (proj1 (NoDup_count_occ string_dec (default [] (skills r))) Hr s). lia.
Qed.

Lemma filter_true {T : Type} (l : list T) : List.filter (fun _ => true) l = l.
Proof. induction l as [|x l IH]; simpl; [reflexivity|]. rewrite IH. reflexivity. Qed.

Lemma count_all_documents (collection : list resume) :
  count_documents (fun _ => true) collection = Z.of_nat (length collection).
Proof. unfold count_documents. rewrite filter_true. reflexivity. Qed.

Lemma distribution_unfold (collection : list resume) (top_n : Z) :
  0 < top_n ->
  analyze_skills_distribution collection top_n
  = match aggregate_skills collection top_n with
    | [] => No_skills_data
    | d :: data =>
        Distribution (Z.of_nat (length collection))
          (List.map (line_of (Z.of_nat (length collection))) (d :: data))
    end.
Proof.
  intros Hn. unfold analyze_skills_distribution.
  destruct (Z.leb_spec top_n 0) as [|_]; [lia|].
  destruct (aggregate_skills collection top_n) as [|d data] eqn:E; [reflexivity|].
  assert (Hne : collection <> []).
  { apply unwind_empty_collection. intros HU.
    assert (Hd : In d (aggregate_skills collection top_n)) by (rewrite E; left; reflexivity).
    apply aggregate_elem, group_count_elem in Hd as [Hd _]. rewrite HU in Hd. exact Hd. }
  rewrite count_all_documents.
  rewrite line_loop by (destruct collection; [congruence|simpl; lia]).
  reflexivity.
Qed.

(** For a positive [top_n] the distribution never fails, in particular never
    on a division: it answers that there is no skills data exactly when no
    document has a skill, and otherwise prints at most [top_n] lines, one per
    distinct skill, by decreasing count; the count of a skill is the number
    of its entries in the [skills] arrays of the collection, and its share is
    that count over the number of documents, times 100. *)
Theorem skills_distribution_lines (collection : list resume) (top_n : Z) :
  0 < top_n ->
  match analyze_skills_distribution collection top_n with
  | No_skills_data => unwind_skills collection = []
  | Distribution_failed _ => False
  | Distribution total lines =>
      total = Z.of_nat (length collection) /\ 0 < total /\
      lines <> [] /\ (length lines <= Z.to_nat top_n)%nat /\
      NoDup (List.map skill lines) /\
      StronglySorted (key_ge count) lines /\
      Forall (fun l =>
                count l = Z.of_nat (count_occ string_dec (unwind_skills collection) (skill l))
                /\ 1 <= count l
                /\ share l = (inject_Z (count l) / inject_Z total * 100)%Q) lines
  end.
Proof.
  intros Hn. rewrite distribution_unfold by exact Hn.
  destruct (aggregate_skills collection top_n) as [|d data] eqn:E.
  - unfold aggregate_skills in E. apply take_nil_inv in E as [E|E]; [lia|].
    pose proof (sorted_desc_perm snd (group_count (unwind_skills collection))) as P.
    rewrite E in P. apply Permutation_nil in P.
    pose proof (group_count_fst (unwind_skills collection)) as F. rewrite P in F.
    simpl in F. destruct (unwind_skills collection) as [|s U]; [reflexivity|].
    assert (Hs : s ∈ remove_dups (s :: U)) by (apply elem_of_remove_dups; left).
    rewrite <- F in Hs. apply elem_of_nil in Hs. destruct Hs.
  - assert (Hin : forall d', In d' (d :: data) ->
               In (fst d') (unwind_skills collection) /\
               snd d' = Z.of_nat (count_occ string_dec (unwind_skills collection) (fst d'))).
    { intros d' Hd'. rewrite <- E in Hd'. apply aggregate_elem, group_count_elem in Hd'.
      exact Hd'. }
    assert (Hpos : 0 < Z.of_nat (length collection)).
    { destruct (Hin d (or_introl eq_refl)) as [Hd _].
      destruct collection; [destruct Hd|simpl; lia]. }
    split; [reflexivity|]. split; [exact Hpos|]. split; [discriminate|].
    split.
    { rewrite length_map, <- E. unfold aggregate_skills. rewrite length_take. lia. }
    split.
    { rewrite List.map_map. change (fun x => skill (line_of _ x)) with (@fst string Z).
      rewrite <- E. unfold aggregate_skills. rewrite <- firstn_map. apply NoDup_take.
      rewrite (Permutation_map fst (sorted_desc_perm snd _)), group_count_fst.
      apply NoDup_remove_dups. }
    split.
    { apply (StronglySorted_map _ (key_ge snd)); [intros x y H; exact H|].
      rewrite <- E. apply StronglySorted_take, sorted_desc_sorted. }
    apply Forall_forall. intros l Hl.
    apply list_elem_of_In, in_map_iff in Hl as (d' & <- & Hd').
    destruct (Hin d' Hd') as [Hu Hc]. cbn [line_of skill count share].
    split; [exact Hc|]. split; [|reflexivity].
    rewrite Hc. apply (count_occ_In string_dec) in Hu. lia.
Qed.

Lemma skills_distribution_lines_witness :
  match analyze_skills_distribution skilled_collection 2 with
  | No_skills_data => unwind_skills skilled_collection = []
  | Distribution_failed _ => False
  | Distribution total lines =>
      total = Z.of_nat (length skilled_collection) /\ 0 < total /\
      lines <> [] /\ (length lines <= Z.to_nat 2)%nat /\
      NoDup (List.map skill lines) /\
      StronglySorted (key_ge count) lines /\
      Forall (fun l =>
                count l
                = Z.of_nat (count_occ string_dec (unwind_skills skilled_collection) (skill l))
                /\ 1 <= count l
                /\ share l = (inject_Z (count l) / inject_Z total * 100)%Q) lines
  end.
Proof. apply (skills_distribution_lines skilled_collection 2). lia. Defined.

(** When no document lists a skill twice, as in the records that the
    extraction builds, no count exceeds the number of documents and every
    share is at most 100. *)
Theorem skill_share_at_most_100 (collection : list resume) (top_n total : Z)
    (lines : list skill_line) :
  Forall (fun r => NoDup (default [] (skills r))) collection ->
  analyze_skills_distribution collection top_n = Distribution total lines ->
  Forall (fun l => count l <= total /\ (share l <= 100)%Q) lines.
Proof.
  intros Hnd H.
  assert (Hn : 0 < top_n).
  { unfold analyze_skills_distribution in H.
    destruct (Z.leb_spec top_n 0); [discriminate H|assumption]. }
  rewrite distribution_unfold in H by exact Hn.
  destruct (aggregate_skills collection top_n) as [|d data] eqn:E; [discriminate H|].
  assert (Et : total = Z.of_nat (length collection) /\
               lines = List.map (line_of (Z.of_nat (length collection))) (d :: data))
    by (injection H as <- <-; split; reflexivity).
  destruct Et as [-> ->]. clear H.
  assert (Hpos : 0 < Z.of_nat (length collection)).
  { assert (Hd : In d (aggregate_skills collection top_n)) by (rewrite E; left; reflexivity).
    apply aggregate_elem, group_count_elem in Hd as [Hd _].
    destruct collection; [destruct Hd|simpl; lia]. }
  assert (Hq : (0 < inject_Z (Z.of_nat (length collection)))%Q)
    by (rewrite <- (Zlt_Qlt 0); exact Hpos).
  apply Forall_forall. intros l Hl.
  apply list_elem_of_In, in_map_iff in Hl as (d' & <- & Hd').
  rewrite <- E in Hd'. apply aggregate_elem, group_count_elem in Hd' as [_ Hc].
  cbn [line_of count share].
  pose proof (count_occ_unwind collection (fst d') Hnd) as Hle.
  assert (Hct : snd d' <= Z.of_nat (length collection)) by lia.
  split; [exact Hct|].
  apply Qle_trans with (1 * 100)%Q; [|discriminate].
  apply Qmult_le_compat_r; [|discriminate].
  apply Qle_shift_div_r; [exact Hq|]. rewrite Qmult_1_l, <- Zle_Qle. exact Hct.
Qed.

Lemma skill_share_at_most_100_witness :
  exists (total : Z) (lines : list skill_line),
    analyze_skills_distribution sample_collection 3 = Distribution total lines /\
    Forall (fun l => count l <= total /\ (share l <= 100)%Q) lines.
Proof.
  eexists. eexists. split; [reflexivity|].
  apply (skill_share_at_most_100 sample_collection 3).
  - apply (bool_decide_unpack _). reflexivity.
  - reflexivity.
Defined.

End DistributionFacts.

(** ** Further properties of the similar-resumes ranking and of the statistics *)

Module RankingMore.
Import Analyzer Notions MoreNotions ScoreFacts SimilarityFacts StatsTheorems.

Lemma slice_to_take {T : Type} (limit : Z) (l : list T) :
  exists k : nat, slice_to limit l = take k l.
Proof. unfold slice_to. destruct (0 <=? limit); eauto. Qed.

(** What the branch computes once the reference is found and has skills. *)
Lemma find_similar_unfold (collection : list resume) (object_id : ObjectId) (limit : Z)
    (reference : resume) :
  find_one collection object_id = Some reference ->
  skill_set reference <> ∅ ->
  find_similar_resumes collection object_id limit
  = match slice_to limit
            (sort_desc (List.map (entry_for (skill_set reference))
                          (List.filter (is_candidate object_id (skill_set reference))
                                       collection))) with
    | [] => No_similar_resumes
    | e :: l => Similar_resumes reference (e :: l)
    end.
Proof.
  intros Hfind Href. unfold find_similar_resumes. rewrite Hfind.
  destruct (decide (skill_set reference = ∅)); [contradiction|].
  rewrite for_each_similar_step by exact Href. cbv zeta.
  unfold find_others. rewrite filter_filter_andb, app_nil_l.
  fold (is_candidate object_id (skill_set reference)).
  destruct (slice_to limit _); reflexivity.
Qed.

Lemma similar_reply_reference (collection : list resume) (object_id : ObjectId)
    (limit : Z) (reference : resume) (similarities : list similarity) :
  find_similar_resumes collection object_id limit = Similar_resumes reference similarities ->
  find_one collection object_id = Some reference /\ skill_set reference <> ∅.
Proof.
  intros H. unfold find_similar_resumes in H.
  destruct (find_one collection object_id) as [r|]; [|discriminate H].
  destruct (decide (skill_set r = ∅)) as [|Hne]; [discriminate H|].
  destruct (for_each _ _ _); [|discriminate H].
  destruct (slice_to limit _); [discriminate H|]. injection H as <- _.
  split; [reflexivity|exact Hne].
Qed.


Lemma jaccard_positive_common (a b : gset string) :
  Qlt_bool 0 (jaccard a b) = true -> a ∩ b <> ∅.
Proof.
  intros H E. unfold jaccard in H. rewrite E, size_empty in H.
  apply Qlt_bool_true in H. simpl in H. unfold Qdiv in H. rewrite Qmult_0_l in H.
  apply Qlt_irrefl in H. exact H.
Qed.

(** Every entry of a printed ranking is about a document of the collection
    other than the reference; its score is the Jaccard index of the two skill
    sets, greater than 0 and at most 1, and its common skills are the skills
    that both have, of which there is at least one. *)
Theorem similar_entries_sound (collection : list resume) (object_id : ObjectId) (limit : Z)
    (reference : resume) (similarities : list similarity) :
  find_similar_resumes collection object_id limit = Similar_resumes reference similarities ->
  Forall (fun e =>
            In (sim_resume e) collection /\
            _id (sim_resume e) <> object_id /\
            sim_score e = jaccard (skill_set reference) (skill_set (sim_resume e)) /\
            (0 < sim_score e)%Q /\ (sim_score e <= 1)%Q /\
            common_skills e = skill_set reference ∩ skill_set (sim_resume e) /\
            common_skills e <> ∅) similarities.
Proof.
  intros H. destruct (similar_reply_reference _ _ _ _ _ H) as [Hfind Href].
  rewrite (find_similar_unfold _ _ _ _ Hfind Href) in H.
  destruct (slice_to_take limit
              (sort_desc (List.map (entry_for (skill_set reference))
                            (List.filter (is_candidate object_id (skill_set reference))
                                         collection)))) as [k Hk].
  rewrite Hk in H.
  assert (E : similarities
              = take k (sort_desc (List.map (entry_for (skill_set reference))
                            (List.filter (is_candidate object_id (skill_set reference))
                                         collection)))).
  { destruct (take k _); [discriminate H|]. injection H as <-. reflexivity. }
  rewrite E. apply Forall_take. apply Forall_forall. intros e He.
  rewrite sort_desc_perm in He.
  apply list_elem_of_In, in_map_iff in He as (r & <- & Hr).
  apply filter_In in Hr as [Hin Hc]. unfold is_candidate in Hc.
  apply andb_true_iff in Hc as [Hid Hpos]. cbn [entry_for sim_resume sim_score common_skills].
  split; [exact Hin|]. split.
  { intros Eid. rewrite Eid, N.eqb_refl in Hid. discriminate Hid. }
  split; [reflexivity|]. split; [apply Qlt_bool_true; exact Hpos|].
  split.
  { apply jaccard_range. intros E'. apply empty_union_L in E' as [E' _]. contradiction. }
  split; [reflexivity|]. apply jaccard_positive_common. exact Hpos.
Qed.

Lemma similar_entries_sound_witness :
  exists (reference : resume) (similarities : list similarity),
    find_similar_resumes sample_collection 1%N 2 = Similar_resumes reference similarities /\
    Forall (fun e =>
              In (sim_resume e) sample_collection /\
              _id (sim_resume e) <> 1%N /\
              sim_score e = jaccard (skill_set reference) (skill_set (sim_resume e)) /\
              (0 < sim_score e)%Q /\ (sim_score e <= 1)%Q /\
              common_skills e = skill_set reference ∩ skill_set (sim_resume e) /\
              common_skills e <> ∅) similarities.
Proof.
  eexists. eexists. split; [vm_compute; reflexivity|].
  apply (similar_entries_sound sample_collection 1%N 2). vm_compute. reflexivity.
Defined.

(** Asking for more never reorders: for two requested counts
    [0 <= limit <= limit'], the ranking for [limit] is the beginning of the
    ranking for [limit'], and it has at most [limit] entries; with [limit = 0]
    the answer is that there are no similar resumes, whatever the
    collection. *)
Theorem similar_limit_prefix (collection : list resume) (object_id : ObjectId)
    (limit limit' : Z) (reference : resume) :
  find_one collection object_id = Some reference ->
  skill_set reference <> ∅ ->
  0 <= limit <= limit' ->
  exists l l' : list similarity,
    ranking_of (find_similar_resumes collection object_id limit) = Some l /\
    ranking_of (find_similar_resumes collection object_id limit') = Some l' /\
    l = take (Z.to_nat limit) l' /\
    (length l <= Z.to_nat limit)%nat /\
    (limit = 0 -> find_similar_resumes collection object_id limit = No_similar_resumes).
Proof.
  intros Hfind Href [H0 Hle].
  rewrite !(find_similar_unfold _ _ _ _ Hfind Href).
  rewrite !slice_to_nonneg by lia.
  set (ranked := sort_desc _).
  exists (take (Z.to_nat limit) ranked), (take (Z.to_nat limit') ranked).
  split; [destruct (take (Z.to_nat limit) ranked); reflexivity|].
  split; [destruct (take (Z.to_nat limit') ranked); reflexivity|].
  split; [rewrite take_take; f_equal; lia|].
  split; [rewrite length_take; lia|].
  intros ->. reflexivity.
Qed.

Lemma similar_limit_prefix_witness :
  exists l l' : list similarity,
    ranking_of (find_similar_resumes sample_collection 1%N 1) = Some l /\
    ranking_of (find_similar_resumes sample_collection 1%N 2) = Some l' /\
    l = take (Z.to_nat 1) l' /\
    (length l <= Z.to_nat 1)%nat /\
    (1 = 0 -> find_similar_resumes sample_collection 1%N 1 = No_similar_resumes).
Proof.
  apply (similar_limit_prefix sample_collection 1%N 1 2 (with_skills 1 ["Python"; "Java"])).
  - reflexivity.
  - intros E. assert (Hs : "Python" ∈ skill_set (with_skills 1 ["Python"; "Java"])).
    { unfold skill_set. apply elem_of_list_to_set. simpl. left. }
    rewrite E in Hs. apply elem_of_empty in Hs. exact Hs.
  - lia.
Defined.

(** A negative [limit] drops entries from the end: with [limit = -k] the
    ranking is the one obtained for the count [n - k], where [n] is the
    number of resumes with a positive index, and it is empty when [k >= n]. *)
Theorem similar_negative_limit (collection : list resume) (object_id : ObjectId)
    (limit : Z) (reference : resume) :
  find_one collection object_id = Some reference ->
  skill_set reference <> ∅ ->
  limit < 0 ->
  let n := Z.of_nat (length (List.filter (is_candidate object_id (skill_set reference))
                                         collection)) in
  find_similar_resumes collection object_id limit
  = find_similar_resumes collection object_id (Z.max 0 (n + limit)).
Proof.
  intros Hfind Href Hneg n.
  rewrite !(find_similar_unfold _ _ _ _ Hfind Href).
  rewrite (slice_to_nonneg (Z.max 0 (n + limit))) by lia.
  unfold slice_to. destruct (Z.leb_spec 0 limit) as [|_]; [lia|].
  set (ranked := sort_desc _).
  assert (Hlen : length ranked = Z.to_nat n).
  { unfold ranked, n. rewrite (Permutation_length (sort_desc_perm _)), length_map.
    rewrite Nat2Z.id. reflexivity. }
  replace (length ranked - Z.to_nat (- limit))%nat with (Z.to_nat (Z.max 0 (n + limit)))
    by (rewrite Hlen; lia).
  reflexivity.
Qed.

Lemma similar_negative_limit_witness :
  let n := Z.of_nat (length (List.filter
                               (is_candidate 1%N (skill_set (with_skills 1 ["Python"; "Java"])))
                               sample_collection)) in
  find_similar_resumes sample_collection 1%N (-1)
  = find_similar_resumes sample_collection 1%N (Z.max 0 (n + -1)).
Proof.
  apply (similar_negative_limit sample_collection 1%N (-1) (with_skills 1 ["Python"; "Java"])).
  - reflexivity.
  - intros E. assert (Hs : "Python" ∈ skill_set (with_skills 1 ["Python"; "Java"])).
    { unfold skill_set. apply elem_of_list_to_set. simpl. left. }
    rewrite E in Hs. apply elem_of_empty in Hs. exact Hs.
  - lia.
Defined.

End RankingMore.

Module StatsMore.
Import Analyzer Notions MoreNotions ScoreFacts SimilarityFacts StatsTheorems.

Lemma count_documents_range (query : resume -> bool) (collection : list resume) :
  0 <= count_documents query collection <= Z.of_nat (length collection).
Proof.
  unfold count_documents. pose proof (filter_length_le query collection). lia.
Qed.

Lemma share_range (count total : Z) :
  0 <= count <= total -> 0 < total ->
  (0 <= inject_Z count / inject_Z total * 100 /\ inject_Z count / inject_Z total * 100 <= 100)%Q.
Proof.
  intros [H0 H1] Ht.
  assert (Hq : (0 < inject_Z total)%Q) by (rewrite <- (Zlt_Qlt 0); exact Ht).
  assert (Hd : (0 <= inject_Z count / inject_Z total /\ inject_Z count / inject_Z total <= 1)%Q).
  { split.
    - apply Qle_shift_div_l; [exact Hq|]. rewrite Qmult_0_l, <- (Zle_Qle 0). exact H0.
    - apply Qle_shift_div_r; [exact Hq|]. rewrite Qmult_1_l, <- Zle_Qle. exact H1. }
  destruct Hd as [Hd0 Hd1]. split.
  - apply Qmult_le_0_compat; [exact Hd0|discriminate].
  - apply Qle_trans with (1 * 100)%Q; [|discriminate].
    apply Qmult_le_compat_r; [exact Hd1|discriminate].
Qed.

Lemma sum_Z_sizes_nonneg (field : resume -> option (list string)) (collection : list resume) :
  0 <= sum_Z (List.map (size_of field) collection).
Proof.
  induction collection as [|r l IH]; simpl; [lia|]. unfold size_of at 1. lia.
Qed.

Lemma avg_sizes (field : resume -> option (list string)) (collection : list resume) :
  collection <> [] ->
  exists q : Q,
    avg (List.map (size_of field) collection) = Some q /\
    (q * inject_Z (Z.of_nat (length collection))
     == inject_Z (sum_Z (List.map (size_of field) collection)))%Q /\
    (0 <= q)%Q.
Proof.
  intros Hne. destruct collection as [|r l]; [congruence|].
  set (c := r :: l) in *.
  assert (Hq : (0 < inject_Z (Z.of_nat (length c)))%Q)
    by (rewrite <- (Zlt_Qlt 0); subst c; simpl; lia).
  exists (inject_Z (sum_Z (List.map (size_of field) c))
          / inject_Z (Z.of_nat (length (List.map (size_of field) c))))%Q.
  split; [reflexivity|]. rewrite length_map. split.
  - field. lra.
  - apply Qle_shift_div_l; [exact Hq|]. rewrite Qmult_0_l, <- (Zle_Qle 0).
    apply sum_Z_sizes_nonneg.
Qed.

Lemma stats_body_eq (collection : list resume) (total : Z) :
  total <> 0 ->
  stats_body collection total
  = let c (query : resume -> bool) := count_documents query collection in
    let p (query : resume -> bool) := (inject_Z (c query) / inject_Z total * 100)%Q in
    Ok {| total_resumes := total;
          resumes_with_skills := c (fun r => nonempty_list (skills r));
          resumes_with_experience := c (fun r => nonempty_list (experience r));
          resumes_with_education := c (fun r => nonempty_list (education r));
          resumes_with_email := c (fun r => truthy (email r));
          resumes_with_phone := c (fun r => truthy (phone r));
          pct_skills := p (fun r => nonempty_list (skills r));
          pct_experience := p (fun r => nonempty_list (experience r));
          pct_education := p (fun r => nonempty_list (education r));
          pct_email := p (fun r => truthy (email r));
          pct_phone := p (fun r => truthy (phone r));
          averages_per_resume := aggregate_averages collection |}.
Proof.
  intros H. unfold stats_body. cbv zeta. rewrite !percent_ok by exact H. reflexivity.
Qed.

(** When statistics are reported, the total is the number of documents, each
    of the five counts lies between 0 and the total, each percentage between
    0 and 100, and the three averages are reported; an average is the sum of
    the lengths of the field over the documents divided by their number, a
    missing field counting for 0. *)
Theorem database_stats_ranges (collection : list resume) (s : statistics) :
  get_database_stats collection = Statistics s ->
  total_resumes s = Z.of_nat (length collection) /\ 0 < total_resumes s /\
  Forall (fun count => 0 <= count <= total_resumes s)
    [resumes_with_skills s; resumes_with_experience s; resumes_with_education s;
     resumes_with_email s; resumes_with_phone s] /\
  Forall (fun pct => (0 <= pct)%Q /\ (pct <= 100)%Q)
    [pct_skills s; pct_experience s; pct_education s; pct_email s; pct_phone s] /\
  exists a : averages,
    averages_per_resume s = Some a /\
    Forall (fun '(q, field) =>
              (q * inject_Z (total_resumes s)
               == inject_Z (sum_Z (List.map (size_of field) collection)))%Q /\ (0 <= q)%Q)
      [(avg_skills a, skills); (avg_experience a, experience); (avg_education a, education)].
Proof.
  intros H. unfold get_database_stats in H. cbv zeta in H.
  pose proof (DistributionFacts.count_all_documents collection) as Ht.
  rewrite Ht in H.
  destruct (Z.eqb_spec (Z.of_nat (length collection)) 0) as [E|Hne]; [discriminate H|].
  rewrite stats_body_eq in H by exact Hne. cbv zeta in H. injection H as <-.
  cbn [total_resumes resumes_with_skills resumes_with_experience resumes_with_education
       resumes_with_email resumes_with_phone pct_skills pct_experience pct_education
       pct_email pct_phone averages_per_resume].
  assert (Hpos : 0 < Z.of_nat (length collection)) by lia.
  split; [reflexivity|]. split; [exact Hpos|].
  split; [repeat constructor; apply count_documents_range|].
  split.
  { repeat constructor;
      try (apply share_range; [apply count_documents_range|exact Hpos]). }
  assert (Hc : collection <> []) by (intros ->; simpl in Hne; lia).
  destruct (avg_sizes skills collection Hc) as (qs & Es & Ps & Ns).
  destruct (avg_sizes experience collection Hc) as (qe & Ee & Pe & Ne).
  destruct (avg_sizes education collection Hc) as (qd & Ed & Pd & Nd).
  unfold aggregate_averages. rewrite Es, Ee, Ed.
  eexists. split; [reflexivity|]. cbn [avg_skills avg_experience avg_education].
  repeat constructor; assumption.
Qed.

Lemma database_stats_ranges_witness :
  exists s : statistics,
    get_database_stats sample_collection = Statistics s /\
    total_resumes s = Z.of_nat (length sample_collection) /\ 0 < total_resumes s /\
    Forall (fun count => 0 <= count <= total_resumes s)
      [resumes_with_skills s; resumes_with_experience s; resumes_with_education s;
       resumes_with_email s; resumes_with_phone s] /\
    Forall (fun pct => (0 <= pct)%Q /\ (pct <= 100)%Q)
      [pct_skills s; pct_experience s; pct_education s; pct_email s; pct_phone s] /\
    exists a : averages,
      averages_per_resume s = Some a /\
      Forall (fun '(q, field) =>
                (q * inject_Z (total_resumes s)
                 == inject_Z (sum_Z (List.map (size_of field) sample_collection)))%Q
                /\ (0 <= q)%Q)
        [(avg_skills a, skills); (avg_experience a, experience);
         (avg_education a, education)].
Proof.
  eexists. split; [reflexivity|].
  apply (database_stats_ranges sample_collection). reflexivity.
Defined.

End StatsMore.

(** ** Further properties of the extraction *)

Module ExtractionMore.
Import App Notions MoreNotions ReFacts ExtractionTheorems.

(** The name is the text of the first entity that is labelled PERSON and
    whose text is not empty, and the empty string when there is none. *)
Theorem name_is_first_person (txt : string) (ents : list entity) :
  name (extract_info txt ents)
  = match List.find names_person ents with
    | Some ent => text ent
    | None => ""
    end.
Proof.
  assert (Loop : forall (l : list entity) (acc : string),
            foldl name_step acc l
            = if String.eqb acc "" then
                match List.find names_person l with
                | Some ent => text ent
                | None => ""
                end
              else acc).
  { induction l as [|ent l IH]; intros acc; simpl.
    - destruct (String.eqb_spec acc "") as [E|E]; [exact E|reflexivity].
    - rewrite IH. unfold name_step, names_person.
      destruct (String.eqb acc "") eqn:Ea.
      + rewrite andb_true_r. destruct (String.eqb (label_ ent) "PERSON"); simpl.
        * destruct (String.eqb (text ent) "") eqn:Et; simpl; rewrite ?Et; reflexivity.
        * rewrite Ea. reflexivity.
      + rewrite andb_false_r, Ea. reflexivity. }
  unfold extract_info. cbn [name]. rewrite Loop. reflexivity.
Qed.

Lemma education_inner (line : string) (keywords acc : list string) (x : string) :
  In x (foldl (education_step line) acc keywords)
  <-> In x acc \/
      (x = Str.strip line /\
       exists keyword, In keyword keywords /\
                       Str.contains (Str.lower keyword) (Str.lower line) = true).
Proof.
  revert acc. induction keywords as [|k keywords IH]; intros acc; simpl.
  - split; [auto|]. intros [H|(_ & k & [] & _)]. exact H.
  - rewrite IH. unfold education_step.
    destruct (Str.contains (Str.lower k) (Str.lower line)) eqn:E.
    + rewrite in_app_iff. simpl. split.
      * intros [[H|[<-|[]]]|(-> & k' & Hk' & Hc)]; eauto 8.
      * intros [H|(-> & k' & [<-|Hk'] & Hc)]; eauto 8.
    + split.
      * intros [H|(-> & k' & Hk' & Hc)]; eauto 8.
      * intros [H|(-> & k' & [<-|Hk'] & Hc)]; [auto|congruence|eauto 8].
Qed.

Lemma education_outer (lines acc : list string) (x : string) :
  In x (foldl education_line_step acc lines)
  <-> In x acc \/
      exists line, In line lines /\ x = Str.strip line /\
        exists keyword, In keyword education_keywords /\
                        Str.contains (Str.lower keyword) (Str.lower line) = true.
Proof.
  revert acc. induction lines as [|line lines IH]; intros acc; simpl.
  - split; [auto|]. intros [H|(l & [] & _)]. exact H.
  - rewrite IH. unfold education_line_step. rewrite education_inner. split.
    + intros [[H|(-> & Hk)]|(l & Hl & Hx)].
      * left. exact H.
      * right. exists line. split; [left; reflexivity|]. split; [reflexivity|exact Hk].
      * right. destruct Hx as (-> & Hk). exists l.
        split; [right; exact Hl|]. split; [reflexivity|exact Hk].
    + intros [H|(l & [<-|Hl] & -> & Hk)].
      * left. left. exact H.
      * left. right. split; [reflexivity|exact Hk].
      * right. exists l. split; [exact Hl|]. split; [reflexivity|exact Hk].
Qed.

(** The education field has no duplicates, and its elements are exactly the
    trimmed lines of the text that contain an education keyword, whatever the
    case. *)
Theorem education_lines (txt : string) (ents : list entity) :
  NoDup (education (extract_info txt ents)) /\
  (forall e : string,
     In e (education (extract_info txt ents))
     <-> exists line : string,
           In line (Str.splitlines txt) /\ e = Str.strip line /\
           exists keyword : string,
             In keyword education_keywords /\
             substring_of (Str.lower keyword) (Str.lower line)).
Proof.
  unfold extract_info. cbn [education]. split; [apply NoDup_elements|].
  intros e.
  rewrite <- list_elem_of_In, elem_of_elements, elem_of_list_to_set, list_elem_of_In.
  rewrite education_outer. unfold substring_of. split.
  - intros [[]|(line & Hl & -> & k & Hk & Hc)].
    exists line. split; [exact Hl|]. split; [reflexivity|].
    exists k. split; [exact Hk|]. apply contains_spec. exact Hc.
  - intros (line & Hl & -> & k & Hk & Hc). right.
    exists line. split; [exact Hl|]. split; [reflexivity|].
    exists k. split; [exact Hk|]. apply contains_spec. exact Hc.
Qed.

Lemma head_filter {T : Type} (f : T -> bool) (g : T -> string) (l : list T) :
  match List.map g (List.filter f l) with p :: _ => p | [] => "" end
  = match List.find f l with Some p => g p | None => "" end.
Proof.
  induction l as [|x l IH]; simpl; [reflexivity|]. destruct (f x); [reflexivity|exact IH].
Qed.

(** The summary is the first paragraph (the text is cut at every blank line)
    whose trimmed form has more than 50 characters, in its trimmed form, and
    the empty string when there is none; so it is either empty or longer than
    50 characters. *)
Theorem summary_is_first_long_paragraph (txt : string) (ents : list entity) :
  summary (extract_info txt ents)
  = match List.find long_paragraph (split_blank [] txt) with
    | Some p => Str.strip p
    | None => ""
    end /\
  (summary (extract_info txt ents) = ""
   \/ (50 < String.length (summary (extract_info txt ents)))%nat).
Proof.
  assert (E : summary (extract_info txt ents)
              = match List.find long_paragraph (split_blank [] txt) with
                | Some p => Str.strip p
                | None => ""
                end).
  { unfold extract_info. cbn [summary]. apply head_filter. }
  split; [exact E|]. rewrite E.
  destruct (List.find long_paragraph (split_blank [] txt)) as [p|] eqn:F; [|left; reflexivity].
  right. apply find_some in F as [_ F]. unfold long_paragraph in F.
  apply Nat.ltb_lt in F. exact F.
Qed.

Lemma summary_is_first_long_paragraph_aux (txt : string) (ents : list entity) :
  summary (extract_info txt ents) = ""
  \/ (50 < String.length (summary (extract_info txt ents)))%nat.
Proof.
  unfold extract_info. cbn [summary]. rewrite head_filter.
  destruct (List.find _ (split_blank [] txt)) as [p|] eqn:F; [|left; reflexivity].
  right. apply find_some in F as [_ F]. apply Nat.ltb_lt in F. exact F.
Qed.

Lemma skills_member (txt : string) (ents : list entity) (tok : string) :
  In tok (skills (extract_info txt ents))
  <-> In tok sample_skills /\ Str.contains (Str.lower tok) (Str.lower txt) = true.
Proof.
  unfold extract_info. cbn [skills]. rewrite skills_loop, app_nil_l.
  rewrite <- list_elem_of_In, elem_of_elements, elem_of_list_to_set, list_elem_of_In.
  rewrite filter_In. reflexivity.
Qed.

Lemma substring_of_trans (a b c : string) :
  substring_of a b -> substring_of b c -> substring_of a c.
Proof.
  intros (p1 & q1 & ->) (p2 & q2 & ->). exists (p2 +:+ p1), (q1 +:+ q2).
  rewrite !append_assoc. reflexivity.
Qed.

(** A token of the vocabulary whose lowercase form occurs in the one of
    another token comes with it: whenever the second token is among the
    extracted skills, so is the first one (Java with JavaScript). *)
Theorem contained_token_comes_along (txt : string) (ents : list entity)
    (tok tok' : string) :
  In tok sample_skills ->
  substring_of (Str.lower tok) (Str.lower tok') ->
  In tok' (skills (extract_info txt ents)) ->
  In tok (skills (extract_info txt ents)).
Proof.
  intros Hv Hsub H. apply skills_member in H as [_ H]. apply skills_member.
  split; [exact Hv|]. apply contains_spec. apply contains_spec in H.
  exact (substring_of_trans _ _ _ Hsub H).
Qed.

Lemma contained_token_comes_along_witness :
  In "Java" (skills (extract_info "Senior JavaScript developer" [])).
Proof.
  apply (contained_token_comes_along "Senior JavaScript developer" [] "Java" "JavaScript").
  - simpl. tauto.
  - exists "", "script". reflexivity.
  - vm_compute. tauto.
Defined.

End ExtractionMore.

(** ** From the upload to the analysis *)

Module UploadFacts.
Import App Notions MoreNotions Upload ReFacts ExtractionTheorems ExtractionMore.

Lemma experience_length (txt : string) (ents : list entity) :
  (length (experience (extract_info txt ents)) <= 5)%nat.
Proof.
  unfold extract_info. cbn [experience]. rewrite length_take. lia.
Qed.

(** The document stored for an extracted record never has the level
    [senior]: its experience has at most 5 entries, so its experience score
    is 7 points per entry and never capped. Its summary counts for 5 points
    exactly when it is not empty, its contact score is 5 points for each of
    the email and the phone that is not empty, and its skill set has as many
    elements as its list of skills. *)
Theorem stored_record_scores (txt : string) (ents : list entity)
    (inserted_id : Analyzer.ObjectId) :
  let data := extract_info txt ents in
  let r := stored inserted_id data in
  Tools.analyze_experience_level (default [] (Analyzer.experience r)) <> Tools.senior /\
  Analyzer.exp_score r = 7 * Z.of_nat (length (experience data)) /\
  (Analyzer.summary_score r = 5 <-> summary data <> "") /\
  Analyzer.contact_score r
  = (if String.eqb (email data) "" then 0 else 5)
    + (if String.eqb (phone data) "" then 0 else 5) /\
  size (Analyzer.skill_set r) = length (skills data).
Proof.
  cbv zeta. pose proof (experience_length txt ents) as Hlen.
  pose proof (summary_is_first_long_paragraph_aux txt ents) as Hsum.
  set (data := extract_info txt ents) in *.
  assert (L : Tools.analyze_experience_level
                (default [] (Analyzer.experience (stored inserted_id data)))
              <> Tools.senior).
  { unfold stored. cbn [Analyzer.experience default].
    unfold Tools.analyze_experience_level.
    destruct (experience data) as [|x l] eqn:Ex; [discriminate|].
    destruct (_ <=? 2)%nat; [discriminate|].
    destruct (_ <=? 5)%nat eqn:E5; [discriminate|].
    apply Nat.leb_gt in E5. unfold id in E5. simpl in Hlen, E5. lia. }
  assert (X : Analyzer.exp_score (stored inserted_id data)
              = 7 * Z.of_nat (length (experience data))).
  { unfold Analyzer.exp_score, stored. cbn [Analyzer.experience default]. unfold id. lia. }
  assert (S : Analyzer.summary_score (stored inserted_id data) = 5 <-> summary data <> "").
  { unfold Analyzer.summary_score, stored. cbn [Analyzer.summary default]. unfold id.
    destruct Hsum as [Hs|Hs].
    - rewrite Hs. simpl. split; [discriminate|congruence].
    - assert (Hne : summary data <> "") by (intros E; rewrite E in Hs; simpl in Hs; lia).
      destruct (String.eqb_spec (summary data) ""); [contradiction|].
      apply Nat.ltb_lt in Hs. rewrite Hs. simpl. split; [intros _; exact Hne|reflexivity]. }
  assert (C : Analyzer.contact_score (stored inserted_id data)
              = (if String.eqb (email data) "" then 0 else 5)
                + (if String.eqb (phone data) "" then 0 else 5)).
  { unfold Analyzer.contact_score, Analyzer.truthy, stored.
    cbn [Analyzer.email Analyzer.phone].
    destruct (String.eqb (email data) ""), (String.eqb (phone data) ""); reflexivity. }
  assert (K : size (Analyzer.skill_set (stored inserted_id data)) = length (skills data)).
  { unfold Analyzer.skill_set, stored. cbn [Analyzer.skills default]. unfold id.
    apply size_list_to_set. unfold data, extract_info. cbn [skills]. apply NoDup_elements. }
  auto.
Qed.

Lemma stored_level (txt : string) (ents : list entity) (inserted_id : Analyzer.ObjectId) :
  has_level Tools.senior (stored inserted_id (extract_info txt ents)) = false.
Proof.
  pose proof (experience_length txt ents) as Hlen.
  unfold has_level, level_of, stored. cbn [Analyzer.experience default]. unfold id.
  set (e := experience (extract_info txt ents)) in *.
  unfold Tools.analyze_experience_level. destruct e as [|x l]; [reflexivity|].
  destruct (_ <=? 2)%nat; [reflexivity|].
  destruct (_ <=? 5)%nat eqn:E5; [reflexivity|].
  apply Nat.leb_gt in E5. simpl in Hlen, E5. lia.
Qed.

Lemma uploaded_no_senior (inputs : list (Analyzer.ObjectId * string * list entity)) :
  count_level Tools.senior (uploaded inputs) = 0.
Proof.
  unfold count_level, uploaded. induction inputs as [|[[i t] e] inputs IH]; [reflexivity|].
  simpl. rewrite stored_level. exact IH.
Qed.

(** In a collection made of uploaded resumes only, the experience analysis
    counts no senior resume: the senior count is 0 and so is its percentage. *)
Theorem uploaded_collection_has_no_senior
    (inputs : list (Analyzer.ObjectId * string * list entity)) :
  inputs <> [] ->
  exists rep : Tools.experience_report,
    Tools.get_experience_analysis (uploaded inputs) = Tools.Experience_analysis rep /\
    Tools.senior_count (Tools.levels rep) = 0 /\
    (Tools.pct_senior rep == 0)%Q /\
    Tools.entry_count (Tools.levels rep) + Tools.mid_count (Tools.levels rep)
    = Z.of_nat (length inputs).
Proof.
  intros Hne.
  assert (Hc : uploaded inputs <> []) by (destruct inputs; [congruence|discriminate]).
  assert (Hlen : length (uploaded inputs) = length inputs) by apply length_map.
  rewrite (ToolsFacts.experience_analysis_nonempty _ Hc).
  rewrite (ToolsFacts.experience_body_ok _ Hc). cbv zeta.
  eexists. split; [reflexivity|].
  cbn [Tools.levels Tools.senior_count Tools.pct_senior Tools.entry_count Tools.mid_count].
  pose proof (ToolsFacts.count_level_total (uploaded inputs)) as Hsum.
  rewrite uploaded_no_senior in *. rewrite Hlen in Hsum.
  split; [reflexivity|]. split; [|lia].
  unfold Qdiv. rewrite !Qmult_0_l. reflexivity.
Qed.

Lemma uploaded_collection_has_no_senior_witness :
  exists rep : Tools.experience_report,
    Tools.get_experience_analysis
      (uploaded [(1%N, "Worked at Acme as an engineer", []); (2%N, "BSc Mathematics", [])])
    = Tools.Experience_analysis rep /\
    Tools.senior_count (Tools.levels rep) = 0 /\
    (Tools.pct_senior rep == 0)%Q /\
    Tools.entry_count (Tools.levels rep) + Tools.mid_count (Tools.levels rep)
    = Z.of_nat (length [(1%N, "Worked at Acme as an engineer", @nil entity);
                        (2%N, "BSc Mathematics", [])]).
Proof.
  apply (uploaded_collection_has_no_senior
           [(1%N, "Worked at Acme as an engineer", []); (2%N, "BSc Mathematics", [])]).
  discriminate.
Defined.

(** *** upload_resume *)

Lemma endswith_spec (suffix s : string) :
  endswith suffix s = true <-> exists stem : string, s = stem +:+ suffix.
Proof.
  induction s as [|c s IH].
  - change (endswith suffix "") with (if String.eqb "" suffix then true else false).
    destruct (String.eqb_spec "" suffix) as [<-|Hne].
    + split; [intros _; exists ""; reflexivity|reflexivity].
    + split; [discriminate|]. intros [stem H]. destruct stem as [|c stem].
      * contradiction.
      * rewrite append_cons in H. discriminate H.
  - change (endswith suffix (String c s))
      with (if String.eqb (String c s) suffix then true else endswith suffix s).
    destruct (String.eqb_spec (String c s) suffix) as [<-|Hne].
    + split; [intros _; exists ""; reflexivity|reflexivity].
    + rewrite IH. split.
      * intros [stem ->]. exists (String c stem). reflexivity.
      * intros [stem H]. destruct stem as [|c' stem].
        -- contradiction.
        -- rewrite append_cons in H. injection H as _ H. eauto.
Qed.

(** The upload answers with a refusal (status 400) exactly when the request
    is not acceptable: no file, an empty file name, or a name that does not
    end in [.pdf] whatever the case. A refused request changes nothing: no
    file is written and no document is stored. *)
Theorem upload_refusals (nlp : string -> list entity) (resume_file : option string)
    (pdf_text : outcome string) (insert_one : outcome Analyzer.ObjectId) (st : state) :
  (acceptable resume_file <->
   forall message, fst (upload_resume nlp resume_file pdf_text insert_one st)
                   <> Bad_request message) /\
  (forall message,
     fst (upload_resume nlp resume_file pdf_text insert_one st) = Bad_request message ->
     snd (upload_resume nlp resume_file pdf_text insert_one st) = st).
Proof.
  unfold upload_resume, acceptable.
  destruct resume_file as [filename|].
  - destruct (String.eqb_spec filename "") as [->|Hne].
    + split; [|reflexivity]. split.
      * intros (f & stem & E & Hf & _). injection E as <-. contradiction.
      * intros H. exfalso. apply (H _ eq_refl).
    + destruct (endswith ".pdf" (Str.lower filename)) eqn:E; simpl negb; cbv iota.
      * apply endswith_spec in E as [stem E]. split.
        -- split; [|eauto 6]. intros _ message.
           destruct pdf_text; [destruct insert_one|]; discriminate.
        -- intros message. destruct pdf_text; [destruct insert_one|]; discriminate.
      * split; [|reflexivity]. split.
        -- intros (f & stem & Ef & _ & Hs). injection Ef as <-.
           assert (endswith ".pdf" (Str.lower filename) = true)
             by (apply endswith_spec; eauto).
           congruence.
        -- intros H. exfalso. apply (H _ eq_refl).
  - split; [|reflexivity]. split.
    + intros (f & stem & E & _). discriminate E.
    + intros H. exfalso. apply (H _ eq_refl).
Qed.

Lemma upload_refusals_witness :
  (acceptable (Some "cv.PDF") <->
   forall message,
     fst (upload_resume (fun _ => []) (Some "cv.PDF") (Raises "broken file") (Raises "down")
            {| files := ∅; collection := [] |})
     <> Bad_request message) /\
  (forall message,
     fst (upload_resume (fun _ => []) (Some "cv.txt") (Raises "broken file") (Raises "down")
            {| files := ∅; collection := [] |}) = Bad_request message ->
     snd (upload_resume (fun _ => []) (Some "cv.txt") (Raises "broken file") (Raises "down")
            {| files := ∅; collection := [] |}) = {| files := ∅; collection := [] |}).
Proof.
  split.
  - apply (upload_refusals (fun _ => []) (Some "cv.PDF")).
  - apply (upload_refusals (fun _ => []) (Some "cv.txt")).
Defined.



End UploadFacts.

(** ** Binary64 percentages *)

Module FloatChecks.
Import MoreNotions.

(** Without job requirements the percentage is computed from an integer
    score between 0 and 100; in binary64 arithmetic these 101 percentages are
    strictly increasing with the score, so that comparing two percentages is
    comparing the two scores. *)
Lemma percentages_in_binary64 : increasing_percentages 100 0%float = true.
Proof. vm_compute. reflexivity. Qed.

End FloatChecks.
